(** * Youtube-Sentiment-Analysis: harvesting and scoring scripts

    A shallow embedding of the logic of the repository's scripts:

    - [data_scraper_channel.py]  (module [Channel]): channel harvest;
    - [main.py]                  (module [Sampler]): stratified keyword harvest;
    - [sentiment_analyzer_transformer.py] (module [Transformer]): chunking and
      averaging of classifier probabilities;
    - [sentiment_analyzer_openai.py] (module [OpenAIScorer]): parsing of the
      language model's reply.

    The first part holds the embedding, the second part the properties.

    The external collaborators (yt-dlp, youtube-transcript-api, the tokenizer,
    the classifier, the completion API) are parameters of the development: the
    scripts are run against an arbitrary world and every theorem holds for all
    of them.  Python values are modelled as follows: [int] as [Z], [str] as
    the [string] of its UTF-8 bytes, lists as [list], order-preserving [dict] as association
    lists, exceptions as the inductive [exn]. *)

From Stdlib Require Import String Ascii List ZArith Lia Bool Arith QArith DecimalString.
From Equations Require Import Equations.
Import ListNotations.

Local Open Scope string_scope.
Local Open Scope Z_scope.

(** ** Python strings *)

Module PyStr.

(** [s.endswith(suf)] *)
Fixpoint endswith (s suf : string) : bool :=
  if String.eqb s suf then true
  else match s with
       | EmptyString => false
       | String _ s' => endswith s' suf
       end.

(** [sub in s] *)
Fixpoint contains (sub s : string) : bool :=
  if String.prefix sub s then true
  else match s with
       | EmptyString => false
       | String _ s' => contains sub s'
       end.

(** [s.rstrip(chars)], the set of characters given as a predicate *)
Fixpoint rstrip_set (p : ascii -> bool) (s : string) : string :=
  match s with
  | EmptyString => EmptyString
  | String c s' =>
      match rstrip_set p s' with
      | EmptyString => if p c then EmptyString else String c EmptyString
      | r => String c r
      end
  end.

(** White space as [str.strip()] and [str.isspace()] see it, read in the
    UTF-8 bytes of the text.  In one byte: U+0009 to U+000D, U+001C to U+001F
    and the space U+0020. *)
Definition space_byte (a : ascii) : bool :=
  let n := N_of_ascii a in
  ((9 <=? n) && (n <=? 13) || (28 <=? n) && (n <=? 32))%N.

(** In two bytes: U+0085 (C2 85) and U+00A0 (C2 A0). *)
Definition space_pair (a b : ascii) : bool :=
  let x := N_of_ascii a in
  let y := N_of_ascii b in
  ((x =? 194) && ((y =? 133) || (y =? 160)))%N.

(** In three bytes: U+1680 (E1 9A 80), U+2000 to U+200A (E2 80 80 to 8A),
    U+2028, U+2029 and U+202F (E2 80 A8, A9, AF), U+205F (E2 81 9F) and
    U+3000 (E3 80 80). *)
Definition space_triple (a b c : ascii) : bool :=
  let x := N_of_ascii a in
  let y := N_of_ascii b in
  let z := N_of_ascii c in
  ((x =? 225) && (y =? 154) && (z =? 128)
   || (x =? 226) && (y =? 128)
      && ((128 <=? z) && (z <=? 138) || (z =? 168) || (z =? 169) || (z =? 175))
   || (x =? 226) && (y =? 129) && (z =? 159)
   || (x =? 227) && (y =? 128) && (z =? 128))%N.

(** The number of bytes of the white-space character a text starts with,
    0 when it starts with none. *)
Definition space_len (s : string) : nat :=
  match s with
  | EmptyString => 0
  | String a r1 =>
      if space_byte a then 1
      else match r1 with
           | EmptyString => 0
           | String b r2 =>
               if space_pair a b then 2
               else match r2 with
                    | EmptyString => 0
                    | String c _ => if space_triple a b c then 3 else 0
                    end
           end
  end.

(** [s[n:]] and [s[:n]] *)
Fixpoint drop (n : nat) (s : string) : string :=
  match n, s with
  | O, _ => s
  | S _, EmptyString => EmptyString
  | S n', String _ r => drop n' r
  end.

Fixpoint take (n : nat) (s : string) : string :=
  match n, s with
  | O, _ => EmptyString
  | S _, EmptyString => EmptyString
  | S n', String a r => String a (take n' r)
  end.

(** [s.lstrip()] *)
Fixpoint lstrip (s : string) : string :=
  match s with
  | EmptyString => EmptyString
  | String a r1 =>
      if space_byte a then lstrip r1
      else match r1 with
           | EmptyString => s
           | String b r2 =>
               if space_pair a b then lstrip r2
               else match r2 with
                    | EmptyString => s
                    | String c r3 => if space_triple a b c then lstrip r3 else s
                    end
           end
  end.

(** A text of white space only, the empty text among them *)
Fixpoint all_space (s : string) : bool :=
  match s with
  | EmptyString => true
  | String a r1 =>
      if space_byte a then all_space r1
      else match r1 with
           | EmptyString => false
           | String b r2 =>
               if space_pair a b then all_space r2
               else match r2 with
                    | EmptyString => false
                    | String c r3 => if space_triple a b c then all_space r3 else false
                    end
           end
  end.

(** [s.rstrip()]: the text up to its trailing white space *)
Fixpoint rstrip (s : string) : string :=
  match s with
  | EmptyString => EmptyString
  | String a r => if all_space (String a r) then EmptyString else String a (rstrip r)
  end.

(** [s.strip()] *)
Definition strip (s : string) : string := lstrip (rstrip s).

(** The text starts with a white-space character *)
Definition starts_with_space (s : string) : bool :=
  negb (Nat.eqb (space_len s) 0).

(** The text ends with a white-space character *)
Fixpoint ends_with_space (s : string) : bool :=
  match s with
  | EmptyString => false
  | String a r =>
      starts_with_space (String a r)
      && Nat.eqb (space_len (String a r)) (String.length (String a r))
      || ends_with_space r
  end.

(** [s.lower()] on the ASCII letters *)
Definition lower_ascii (c : ascii) : ascii :=
  let n := N_of_ascii c in
  if ((65 <=? n) && (n <=? 90))%N then ascii_of_N (n + 32) else c.

Fixpoint lower (s : string) : string :=
  match s with
  | EmptyString => EmptyString
  | String c s' => String (lower_ascii c) (lower s')
  end.

(** [sep.join(parts)] *)
Fixpoint join (sep : string) (parts : list string) : string :=
  match parts with
  | [] => EmptyString
  | [p] => p
  | p :: rest => p ++ sep ++ join sep rest
  end.

(** [s.split(sep)] for a one-character separator: never empty, one more
    field than there are separators. *)
Fixpoint split_char (sep : ascii) (s : string) : list string :=
  match s with
  | EmptyString => [EmptyString]
  | String c s' =>
      if Ascii.eqb c sep then EmptyString :: split_char sep s'
      else match split_char sep s' with
           | [] => [String c EmptyString]
           | f :: fs => String c f :: fs
           end
  end.

(** [s.replace(c, "")] for a one-character pattern *)
Fixpoint remove_char (c : ascii) (s : string) : string :=
  match s with
  | EmptyString => EmptyString
  | String d s' => if Ascii.eqb d c then remove_char c s' else String d (remove_char c s')
  end.

(** Number of occurrences of a character *)
Fixpoint count_char (c : ascii) (s : string) : nat :=
  match s with
  | EmptyString => O
  | String d s' => (if Ascii.eqb d c then 1 else 0) + count_char c s'
  end.

(** Truthiness of a [str]: [bool(s)] *)
Definition truthy (s : string) : bool :=
  match s with EmptyString => false | _ => true end.

End PyStr.

(** ** Python exceptions and results *)

(** The exception classes the scripts meet.  All of them derive from
    [Exception]; [OtherError] stands for any other [Exception] subclass. *)
Inductive exn : Type :=
| TranscriptsDisabled
| ValueError (msg : string)
| DownloadError (msg : string)
| ZeroDivisionError
| OtherError (msg : string).

Inductive res (A : Type) : Type :=
| Ok (a : A)
| Raise (e : exn).
Arguments Ok {A} a.
Arguments Raise {A} e.

(** ** Python sequences: [range] with a step and slices *)

Module PySeq.

(** Case analysis that remembers which case was taken. *)
Definition inspect {A : Type} (x : A) : {y : A | x = y} := exist _ x eq_refl.

(** The indices [i, i+step, ...] below [stop], for a positive step. *)
Equations? range_up (i stop step : Z) : list Z by wf (Z.to_nat (stop - i)) lt :=
  range_up i stop step with inspect ((i <? stop) && (0 <? step)) := {
    | exist _ true _ => i :: range_up (i + step) stop step
    | exist _ false _ => [] }.
Proof.
  apply andb_prop in e. destruct e as [H1 H2].
  apply Z.ltb_lt in H1. apply Z.ltb_lt in H2. lia.
Qed.

(** The indices [i, i+step, ...] above [stop], for a negative step. *)
Equations? range_down (i stop step : Z) : list Z by wf (Z.to_nat (i - stop)) lt :=
  range_down i stop step with inspect ((stop <? i) && (step <? 0)) := {
    | exist _ true _ => i :: range_down (i + step) stop step
    | exist _ false _ => [] }.
Proof.
  apply andb_prop in e. destruct e as [H1 H2].
  apply Z.ltb_lt in H1. apply Z.ltb_lt in H2. lia.
Qed.

(** [range(start, stop, step)]; a zero step raises [ValueError]. *)
Definition range (start stop step : Z) : res (list Z) :=
  if step =? 0 then Raise (ValueError "range() arg 3 must not be zero")
  else if 0 <? step then Ok (range_up start stop step)
  else Ok (range_down start stop step).

(** A slice bound is taken from the end when negative and clamped to
    the sequence. *)
Definition clamp (len k : Z) : Z :=
  if k <? 0 then Z.max 0 (k + len) else Z.min k len.

(** [l[lo:hi]] *)
Definition slice {A} (l : list A) (lo hi : Z) : list A :=
  let len := Z.of_nat (length l) in
  let lo' := clamp len lo in
  let hi' := clamp len hi in
  firstn (Z.to_nat (hi' - lo')) (skipn (Z.to_nat lo') l).

End PySeq.


(** ** Data model *)

(** A video dictionary as yt-dlp returns it.  A field is [None] when the key
    is missing or its value is Python's [None]. *)
Record video_info : Type := mkInfo {
  e_id : option string;
  e_view_count : option Z;
  e_like_count : option Z;
  e_comment_count : option Z;
  e_title : option string;
  e_upload_date : option string }.

(** A listing (a channel's uploads, the answer to a search): the key
    ["entries"] may be missing. *)
Record playlist_info : Type := mkListing {
  entries : option (list video_info) }.

(** A caption segment: only its text is read. *)
Record segment : Type := mkSegment { seg_text : string }.

(** One CSV row.  The sampler takes the identifier from [e.get('id')], which
    may be [None]. *)
Record VideoRecord : Type := mkRecord {
  video_id : option string;
  views : Z;
  likes : Z;
  comments : Z;
  title : string;
  published_at : string;
  transcript : string }.

(** [x or 0] on an integer that may be [None] *)
Definition py_or0 (x : option Z) : Z :=
  match x with
  | Some v => if v =? 0 then 0 else v
  | None => 0
  end.

(** [d.get(key, "")] on a string field, [None] written as the empty text *)
Definition py_or_empty (x : option string) : string :=
  match x with
  | Some s => s
  | None => EmptyString
  end.

Definition key_eqb (a b : option string) : bool :=
  match a, b with
  | Some x, Some y => String.eqb x y
  | None, None => true
  | _, _ => false
  end.

(** ** The world the scripts run in *)

(** The external services, as transitions of an arbitrary world [W]. *)
Class Services (W : Type) : Type := mkServices {
  (** [YoutubeDL.extract_info] on a channel page or a search query *)
  extract_listing : string -> W -> res playlist_info * W;
  (** [YoutubeDL.extract_info] on a watch URL *)
  extract_video : string -> W -> res video_info * W;
  (** [YouTubeTranscriptApi.get_transcript] *)
  get_transcript : option string -> W -> res (list segment) * W;
  (** [random.choice] *)
  random_choice : list string -> W -> string * W;
  (** [random.uniform] *)
  random_uniform : Q -> Q -> W -> Q * W;
  (** what happens in the world during [time.sleep] *)
  during_sleep : Q -> W -> W }.

(** What a run does to the outside, in order. *)
Inductive event : Type :=
| EvListing (url : string)
| EvMetadata (url : string)
| EvTranscript (vid : option string)
| EvSleep (secs : Q).

(** The state of a run: the world, the calls made so far and the rows of the
    output file. *)
Record state (W : Type) : Type := mkState {
  world : W;
  trace : list event;
  csv : list VideoRecord }.
Arguments mkState {W} _ _ _.
Arguments world {W} _.
Arguments trace {W} _.
Arguments csv {W} _.

(** Computations that read and change the state and may raise. *)
Definition M (W A : Type) : Type := state W -> res A * state W.

Definition ret {W A} (a : A) : M W A := fun st => (Ok a, st).

Definition raise {W A} (e : exn) : M W A := fun st => (Raise e, st).

Definition bind {W A B} (c : M W A) (k : A -> M W B) : M W B :=
  fun st =>
    match c st with
    | (Ok a, st1) => k a st1
    | (Raise e, st1) => (Raise e, st1)
    end.

(** [try: c  except Exception as e: h e] *)
Definition catch {W A} (c : M W A) (h : exn -> M W A) : M W A :=
  fun st =>
    match c st with
    | (Ok a, st1) => (Ok a, st1)
    | (Raise e, st1) => h e st1
    end.

(** The outcome of [c], for a [try] whose handlers follow *)
Definition attempt {W A} (c : M W A) : M W (res A) :=
  fun st => let (r, st1) := c st in (Ok r, st1).

Declare Scope py_scope.
Delimit Scope py_scope with py.
Notation "x <- c ;; k" := (bind c (fun x => k))
  (at level 61, c at next level, right associativity) : py_scope.
Notation "c ;; k" := (bind c (fun _ => k))
  (at level 61, right associativity) : py_scope.
Local Open Scope py_scope.

Definition call_listing {W} `{Services W} (url : string) : M W playlist_info :=
  fun st =>
    let (r, w) := extract_listing url (world st) in
    (r, mkState w (trace st ++ [EvListing url]) (csv st)).

Definition call_video {W} `{Services W} (url : string) : M W video_info :=
  fun st =>
    let (r, w) := extract_video url (world st) in
    (r, mkState w (trace st ++ [EvMetadata url]) (csv st)).

Definition call_transcript {W} `{Services W} (vid : option string) : M W (list segment) :=
  fun st =>
    let (r, w) := get_transcript vid (world st) in
    (r, mkState w (trace st ++ [EvTranscript vid]) (csv st)).

Definition choice {W} `{Services W} (l : list string) : M W string :=
  fun st =>
    let (q, w) := random_choice l (world st) in
    (Ok q, mkState w (trace st) (csv st)).

Definition uniform {W} `{Services W} (lo hi : Q) : M W Q :=
  fun st =>
    let (d, w) := random_uniform lo hi (world st) in
    (Ok d, mkState w (trace st) (csv st)).

(** [time.sleep(secs)] *)
Definition sleep {W} `{Services W} (secs : Q) : M W unit :=
  fun st => (Ok tt, mkState (during_sleep secs (world st)) (trace st ++ [EvSleep secs]) (csv st)).

(** [open(OUTPUT_CSV, "w")] and [writer.writeheader()]: the file starts empty *)
Definition open_csv {W} : M W unit :=
  fun st => (Ok tt, mkState (world st) (trace st) []).

(** [writer.writerow(r)] *)
Definition writerow {W} (r : VideoRecord) : M W unit :=
  fun st => (Ok tt, mkState (world st) (trace st) (csv st ++ [r])).

(** [for x in l: body x], without [break] *)
Fixpoint for_each {W A} (body : A -> M W unit) (l : list A) : M W unit :=
  match l with
  | [] => ret tt
  | x :: rest => body x ;; for_each body rest
  end.

(** [fetch_transcript], the same text in [data_scraper_channel.py] and in
    [main.py]. *)
Definition fetch_transcript {W} `{Services W} (video_id : option string) : M W string :=
  segs <- call_transcript video_id ;;
  let text := PyStr.strip (PyStr.join " " (map seg_text segs)) in
  if negb (PyStr.truthy text) then raise (ValueError "empty transcript")
  else ret text.

(** The test both scripts apply to a [DownloadError]'s text *)
Definition is_rate_limited (msg : string) : bool :=
  PyStr.contains "rate-limited" (PyStr.lower msg).

(** ** [data_scraper_channel.py] *)

Module Channel.

Definition CHANNEL_URL : string := "https://www.youtube.com/@CosmicSkeptic".
Definition MIN_PAUSE : Q := 1.
Definition MAX_PAUSE : Q := 5 # 2.

Definition is_slash (c : ascii) : bool := Ascii.eqb c "/".

Definition normalize_to_videos_page (url : string) : string :=
  if PyStr.endswith (PyStr.rstrip_set is_slash url) "/videos" then url
  else PyStr.rstrip_set is_slash url ++ "/videos".

(** [time.sleep(random.uniform(MIN_PAUSE, MAX_PAUSE))] *)
Definition throttle {W} `{Services W} : M W unit :=
  pause <- uniform MIN_PAUSE MAX_PAUSE ;; sleep pause.

(** Step b of the loop body of [main]: the metadata of one video, [None]
    when the video is to be skipped. *)
Definition fetch_metadata {W} `{Services W} (video_id : string) : M W (option video_info) :=
  let vid_url := "https://www.youtube.com/watch?v=" ++ video_id in
  catch (info <- call_video vid_url ;; ret (Some info))
    (fun e =>
       match e with
       | DownloadError msg =>
           if is_rate_limited msg then
             sleep 60 ;;
             catch (info <- call_video vid_url ;; ret (Some info))
               (fun e2 => throttle ;; ret None)
           else throttle ;; ret None
       | _ => throttle ;; ret None
       end).

(** Step c and d: the row written for a video *)
Definition row_of (video_id : string) (info : video_info) (transcript : string) : VideoRecord :=
  mkRecord (Some video_id)
    (py_or0 (e_view_count info)) (py_or0 (e_like_count info)) (py_or0 (e_comment_count info))
    (py_or_empty (e_title info)) (py_or_empty (e_upload_date info)) transcript.

(** The body of the loop over the channel's entries *)
Definition process_entry {W} `{Services W} (entry : video_info) : M W unit :=
  match e_id entry with
  | None => ret tt
  | Some video_id =>
      if negb (PyStr.truthy video_id) then ret tt
      else
        fetched <- attempt (fetch_transcript (Some video_id)) ;;
        match fetched with
        | Raise TranscriptsDisabled => throttle
        | Raise _ => throttle
        | Ok transcript =>
            found <- fetch_metadata video_id ;;
            match found with
            | None => ret tt
            | Some info => writerow (row_of video_id info transcript) ;; throttle
            end
        end
  end.

Definition main_on {W} `{Services W} (channel_url : string) : M W unit :=
  if negb (PyStr.truthy channel_url) then
    raise (ValueError "Please set CHANNEL_URL to the target channel.")
  else
    let videos_page := normalize_to_videos_page channel_url in
    listed <- attempt (call_listing videos_page) ;;
    match listed with
    | Raise _ => ret tt
    | Ok channel_info =>
        match entries channel_info with
        | None | Some [] => ret tt
        | Some es => open_csv ;; for_each process_entry es
        end
    end.

Definition main {W} `{Services W} : M W unit := main_on CHANNEL_URL.

End Channel.

(** ** [main.py] *)

Module Sampler.

Definition TARGET_PER_TIER : Z := 50.

Definition COMMON_QUERIES : list string :=
  ["the"; "and"; "vlog"; "news"; "how"; "review"; "music"; "fun"; "daily"; "life"].

(** An upper bound of a tier: a number or [float('inf')] *)
Inductive bound : Type :=
| Finite (z : Z)
| Infinity.

Definition TIERS : list (string * Z * bound) :=
  [("viral", 1000000, Infinity);
   ("popular", 100000, Finite 1000000);
   ("mid", 10000, Finite 100000);
   ("niche", 0, Finite 10000)].

(** [views < max_views] *)
Definition below (views : Z) (max_views : bound) : bool :=
  match max_views with
  | Finite m => views <? m
  | Infinity => true
  end.

(** [min_views <= views < max_views] *)
Definition in_tier (min_views : Z) (max_views : bound) (views : Z) : bool :=
  (min_views <=? views) && below views max_views.

(** The dictionary [collected], in insertion order *)
Definition dict : Type := list (option string * VideoRecord).

(** [vid in collected] *)
Definition dict_mem (vid : option string) (d : dict) : bool :=
  existsb (fun kv => key_eqb (fst kv) vid) d.

(** [collected[vid] = r]: a present key keeps its place *)
Fixpoint dict_set (vid : option string) (r : VideoRecord) (d : dict) : dict :=
  match d with
  | [] => [(vid, r)]
  | (k, v) :: rest =>
      if key_eqb k vid then (k, r) :: rest else (k, v) :: dict_set vid r rest
  end.

(** [list(collected.values())] *)
Definition dict_values (d : dict) : list VideoRecord := map snd d.

(** [len(collected)] *)
Definition dict_len (d : dict) : Z := Z.of_nat (length d).

(** Step 4 of the loop: the record of an accepted candidate *)
Definition record_of (e : video_info) (transcript : string) : VideoRecord :=
  mkRecord (e_id e)
    (py_or0 (e_view_count e)) (py_or0 (e_like_count e)) (py_or0 (e_comment_count e))
    (py_or_empty (e_title e)) (py_or_empty (e_upload_date e)) transcript.

(** The loop [for e in entries] of [search_and_filter], with its
    [continue]s and its [break]. *)
Fixpoint scan_entries {W} `{Services W} (min_views : Z) (max_views : bound) (needed : Z)
    (es : list video_info) (collected : dict) : M W dict :=
  match es with
  | [] => ret collected
  | e :: rest =>
      let vid := e_id e in
      let views := py_or0 (e_view_count e) in
      if dict_mem vid collected then scan_entries min_views max_views needed rest collected
      else if negb (in_tier min_views max_views views) then
        scan_entries min_views max_views needed rest collected
      else
        fetched <- attempt (fetch_transcript vid) ;;
        match fetched with
        | Raise TranscriptsDisabled => scan_entries min_views max_views needed rest collected
        | Raise _ => scan_entries min_views max_views needed rest collected
        | Ok transcript =>
            let collected' := dict_set vid (record_of e transcript) collected in
            if needed <=? dict_len collected' then ret collected'
            else scan_entries min_views max_views needed rest collected'
        end
  end.

(** The loop [while len(collected) < needed]; [None] when the iterations
    allowed by [fuel] do not fill the quota. *)
Fixpoint search_loop {W} `{Services W} (fuel : nat) (min_views : Z) (max_views : bound)
    (needed : Z) (collected : dict) : M W (option dict) :=
  if dict_len collected <? needed then
    match fuel with
    | O => ret None
    | S fuel' =>
        q <- choice COMMON_QUERIES ;;
        found <- attempt (call_listing ("ytsearch50:" ++ q)) ;;
        match found with
        | Raise (DownloadError msg) =>
            (if is_rate_limited msg then sleep 60 else sleep 10) ;;
            search_loop fuel' min_views max_views needed collected
        | Raise e => raise e
        | Ok info =>
            let es := match entries info with Some l => l | None => [] end in
            collected' <- scan_entries min_views max_views needed es collected ;;
            pause <- uniform 1 3 ;;
            sleep pause ;;
            search_loop fuel' min_views max_views needed collected'
        end
    end
  else ret (Some collected).

Definition search_and_filter {W} `{Services W} (fuel : nat) (min_views : Z)
    (max_views : bound) (needed : Z) : M W (option (list VideoRecord)) :=
  found <- search_loop fuel min_views max_views needed [] ;;
  match found with
  | None => ret None
  | Some collected => ret (Some (dict_values collected))
  end.

(** The loop [for name, lo, hi in TIERS] of [main] *)
Fixpoint sample_tiers {W} `{Services W} (fuel : nat) (tiers : list (string * Z * bound))
    (all_videos : list VideoRecord) : M W (option (list VideoRecord)) :=
  match tiers with
  | [] => ret (Some all_videos)
  | (_, lo, hi) :: rest =>
      found <- search_and_filter fuel lo hi TARGET_PER_TIER ;;
      match found with
      | None => ret None
      | Some vids => sample_tiers fuel rest (all_videos ++ vids)
      end
  end.

Definition main {W} `{Services W} (fuel : nat) : M W (option unit) :=
  sampled <- sample_tiers fuel TIERS [] ;;
  match sampled with
  | None => ret None
  | Some all_videos => open_csv ;; for_each writerow all_videos ;; ret (Some tt)
  end.

End Sampler.

(** ** [sentiment_analyzer_transformer.py] *)

Module Transformer.

(** The pretrained tokenizer and classifier.  [predict ids] stands for the
    forward pass on [ids] followed by the softmax and [tolist()]: the pair
    (NEGATIVE, POSITIVE) of probabilities, floats idealised as rationals. *)
Class Classifier : Type := mkClassifier {
  encode : string -> list Z;
  cls_token_id : Z;
  sep_token_id : Z;
  model_max_length : Z;
  predict : list Z -> Q * Q }.

Definition chunk_size `{Classifier} : Z := model_max_length - 2.

Definition transcript_to_id_chunks `{Classifier} (text : string) (chunk_size : Z)
    : res (list (list Z)) :=
  let token_ids := encode text in
  match PySeq.range 0 (Z.of_nat (length token_ids)) chunk_size with
  | Raise e => Raise e
  | Ok starts => Ok (map (fun i => PySeq.slice token_ids i (i + chunk_size)) starts)
  end.

(** [sum(l)] *)
Definition py_sum (l : list Q) : Q := fold_left Qplus l 0%Q.

(** The least [q] with [a <= q * b], for a positive [b] *)
Definition ceil_div (a b : Z) : Z := (a + b - 1) / b.

(** [x / n] for a length [n] *)
Definition py_div (x : Q) (n : nat) : res Q :=
  match n with
  | O => Raise ZeroDivisionError
  | S _ => Ok (x / inject_Z (Z.of_nat n))%Q
  end.

(** The per-window loop: the probabilities of every window, in order *)
Definition window_probs `{Classifier} (id_chunks : list (list Z)) : list (Q * Q) :=
  map (fun ids => predict ([cls_token_id] ++ ids ++ [sep_token_id])) id_chunks.

(** The body of the loop over the rows: (avg_neg, avg_pos, score) *)
Definition score_transcript `{Classifier} (transcript : string) : res (Q * Q * Q) :=
  match transcript_to_id_chunks transcript chunk_size with
  | Raise e => Raise e
  | Ok id_chunks =>
      let probs := window_probs id_chunks in
      let chunk_neg := map fst probs in
      let chunk_pos := map snd probs in
      match py_div (py_sum chunk_neg) (length chunk_neg) with
      | Raise e => Raise e
      | Ok avg_neg =>
          match py_div (py_sum chunk_pos) (length chunk_pos) with
          | Raise e => Raise e
          | Ok avg_pos => Ok (avg_neg, avg_pos, (avg_pos - avg_neg)%Q)
          end
      end
  end.

(** The loop over the rows; an exception ends the script before the output
    file is written. *)
Fixpoint score_all `{Classifier} (transcripts : list string) : res (list (Q * Q * Q)) :=
  match transcripts with
  | [] => Ok []
  | t :: rest =>
      match score_transcript t with
      | Raise e => Raise e
      | Ok s =>
          match score_all rest with
          | Raise e => Raise e
          | Ok ss => Ok (s :: ss)
          end
      end
  end.

End Transformer.

(** ** [sentiment_analyzer_openai.py] *)

Module OpenAIScorer.

Definition dquote : ascii := ascii_of_N 34.
Definition nl : string := String (ascii_of_N 10) EmptyString.

(** [parameters.keys()] *)
Definition parameters_keys : list string :=
  ["Negativity"; "Controversiality"; "Emotional Elevation/Excitement"; "Overall Quality"].

(** [parameters.values()] *)
Definition parameters_values : list string :=
  ["Degree of negative emotional tone expressed in the text";
   "Extent to which the text is likely to provoke disagreement or strong opposing views";
   "Level of emotional intensity or stimulation conveyed by the text";
   "Clarity, coherence, and polish of the text's expression"].

Definition parameters_text : string := PyStr.join ", " parameters_keys.

(** [repr] of a string: double quotes when it holds an apostrophe *)
Definition py_repr (s : string) : string :=
  if PyStr.contains "'" s then String dquote s ++ String dquote EmptyString
  else "'" ++ s ++ "'".

(** [repr(parameters)] *)
Definition parameters_repr : string :=
  "{" ++ PyStr.join ", "
           (map (fun kv => py_repr (fst kv) ++ ": " ++ py_repr (snd kv))
                (combine parameters_keys parameters_values)) ++ "}".

Definition prompt_template : string :=
  "Analyze the following text and assign a score from 1 to 10 for each of the following dimensions:"
  ++ nl ++ "    " ++ parameters_repr ++ nl
  ++ "Respond with four numbers only, in the following order:" ++ nl
  ++ "    " ++ parameters_text ++ nl
  ++ "Separate each number with a comma. Do not include any explanation or extra text."
  ++ nl ++ nl.

(** The frame [new_data]: its rows by index label, each a list of cells for
    the four columns. *)
Definition frame : Type := list (nat * list string).

Fixpoint row_set (idx : nat) (cells : list string) (f : frame) : frame :=
  match f with
  | [] => [(idx, cells)]
  | (i, c) :: rest =>
      if Nat.eqb i idx then (i, cells) :: rest else (i, c) :: row_set idx cells rest
  end.

(** [new_data.loc[idx, columns] = value] for a list [value]: pandas sets one
    cell per column when the lengths agree, repeats a single element, and
    raises [ValueError] otherwise (the wording of its message varies with the
    version of pandas). *)
Definition loc_setitem (idx : nat) (columns value : list string) (f : frame) : res frame :=
  if Nat.eqb (length value) (length columns) then Ok (row_set idx value f)
  else match value with
       | [v] => Ok (row_set idx (repeat v (length columns)) f)
       | _ => Raise (ValueError "Must have equal len keys and value when setting with an iterable")
       end.

(** Step 5 of the loop body: [scores] *)
Definition parse_reply (resp_text : string) : list string :=
  map PyStr.strip (PyStr.split_char "," resp_text).

(** The body of the loop over the rows, given the model's reply
    [response.output_text] *)
Definition score_row (idx : nat) (output_text : string) (new_data : frame) : res frame :=
  let resp_text := PyStr.strip output_text in
  let scores := parse_reply resp_text in
  loc_setitem idx parameters_keys scores new_data.

(** The loop over the rows [(idx, transcript)] of the input, [complete]
    being the hosted model. *)
Fixpoint score_rows (complete : string -> string) (rows : list (nat * string))
    (new_data : frame) : res frame :=
  match rows with
  | [] => Ok new_data
  | (idx, transcript) :: rest =>
      let transcript_text := PyStr.remove_char dquote transcript in
      let full_prompt := prompt_template ++ transcript_text in
      match score_row idx (complete full_prompt) new_data with
      | Raise e => Raise e
      | Ok new_data' => score_rows complete rest new_data'
      end
  end.

End OpenAIScorer.

(** ** A scripted world for concrete runs *)

Module Mock.

(** A world whose listing and metadata services answer from a script, one
    answer per request, whatever is asked; the captions of a video do not
    change. *)
Record world : Type := mkWorld {
  listings : list (res playlist_info);
  metadata : list (res video_info) }.

Definition next {A} (script : list (res A)) : res A * list (res A) :=
  match script with
  | [] => (Raise (DownloadError "no more answers"), [])
  | r :: rest => (r, rest)
  end.

Definition scripted (captions : option string -> res (list segment)) : Services world := {|
  extract_listing := fun _ w =>
    let (r, rest) := next (listings w) in (r, mkWorld rest (metadata w));
  extract_video := fun _ w =>
    let (r, rest) := next (metadata w) in (r, mkWorld (listings w) rest);
  get_transcript := fun vid w => (captions vid, w);
  random_choice := fun l w => (hd EmptyString l, w);
  random_uniform := fun lo hi w => (lo, w);
  during_sleep := fun _ w => w |}.

(** A world without memory: every service answers by the request alone. *)
Definition fixed (listing : string -> res playlist_info)
    (video : string -> res video_info)
    (captions : option string -> res (list segment)) : Services unit := {|
  extract_listing := fun url w => (listing url, w);
  extract_video := fun url w => (video url, w);
  get_transcript := fun vid w => (captions vid, w);
  random_choice := fun l w => (hd EmptyString l, w);
  random_uniform := fun lo hi w => (lo, w);
  during_sleep := fun _ w => w |}.

Definition start {W} (w : W) : state W := mkState w [] [].

(** A video dictionary with an identifier and a view count *)
Definition video (vid : string) (view_count : option Z) : video_info :=
  mkInfo (Some vid) view_count None None (Some ("title of " ++ vid)) (Some "20240101").

(** Three uploads: captions disabled, no caption, one caption. *)
Definition three_uploads : Services unit :=
  fixed
    (fun _ => Ok (mkListing (Some [video "A" (Some 10); video "B" (Some 20); video "C" (Some 30)])))
    (fun _ => Ok (video "C" (Some 30)))
    (fun vid =>
       match vid with
       | Some "A" => Raise TranscriptsDisabled
       | Some "B" => Ok []
       | _ => Ok [mkSegment "hello world"]
       end).

(** The no-break space U+00A0, in UTF-8 *)
Definition nbsp : string := String (ascii_of_N 194) (String (ascii_of_N 160) EmptyString).

(** The em space U+2003, in UTF-8 *)
Definition emsp : string :=
  String (ascii_of_N 226) (String (ascii_of_N 128) (String (ascii_of_N 131) EmptyString)).

(** One upload whose captions are no-break spaces and a tabulator *)
Definition blank_captions : Services unit :=
  fixed
    (fun _ => Ok (mkListing (Some [video "D" (Some 40)])))
    (fun _ => Ok (video "D" (Some 40)))
    (fun _ => Ok [mkSegment nbsp; mkSegment (String (ascii_of_N 9) nbsp)]).

(** One upload whose captions have white space around the words *)
Definition padded_captions : Services unit :=
  fixed
    (fun _ => Ok (mkListing (Some [video "E" (Some 50)])))
    (fun _ => Ok (video "E" (Some 50)))
    (fun _ => Ok [mkSegment (nbsp ++ "hello"); mkSegment ("world " ++ emsp)]).

(** Captions that every video has *)
Definition spoken (vid : option string) : res (list segment) :=
  Ok [mkSegment "some words"].

(** The identifier [prefix] followed by the number [n] *)
Definition numbered (prefix : string) (n : nat) : string :=
  prefix ++ NilEmpty.string_of_uint (Nat.to_uint n).

(** [n] videos with one view count: prefix0, prefix1, ... *)
Definition batch (prefix : string) (view_count : option Z) (n : nat) : list video_info :=
  map (fun k => video (numbered prefix k) view_count) (seq 0 n).

Definition answer (es : list video_info) : res playlist_info :=
  Ok (mkListing (Some es)).

(** A search for the tier of 10 000 to 100 000 views: the first answer
    holds one candidate in range, then the service is rate-limited, and the
    next answer has more of them than the quota of two needs. *)
Definition mid_tier_search : world :=
  mkWorld
    [answer [video "a" (Some 5000); video "b" (Some 50000); video "c" (Some 150000)];
     Raise (DownloadError "ERROR: Your IP is Rate-Limited by YouTube");
     answer [video "b" (Some 50000); video "d" (Some 100000); video "e" (Some 60000);
             video "f" (Some 70000)]]
    [].

(** Four answers that fill the four tiers.  The video v0 has two million
    views in the first answer and no view count in the last one. *)
Definition drifting_views : world :=
  mkWorld
    [answer (batch "v" (Some 2000000) 50);
     answer (batch "p" (Some 500000) 50);
     answer (batch "m" (Some 50000) 50);
     answer (video "v0" None :: batch "n" (Some 500) 49)]
    [].

(** Four answers that fill the four tiers with different videos. *)
Definition steady_views : world :=
  mkWorld
    [answer (batch "v" (Some 2000000) 50);
     answer (batch "p" (Some 500000) 50);
     answer (batch "m" (Some 50000) 50);
     answer (batch "n" (Some 500) 50)]
    [].

(** The metadata service is rate-limited once, then answers. *)
Definition limited_once : world :=
  mkWorld [] [Raise (DownloadError "HTTP Error 429: rate-limited"); Ok (video "C" (Some 30))].

(** The metadata service is rate-limited, then fails again. *)
Definition limited_twice : world :=
  mkWorld [] [Raise (DownloadError "HTTP Error 429: rate-limited");
              Raise (DownloadError "HTTP Error 429: rate-limited")].

(** The search service fails with an error that is no [DownloadError]. *)
Definition broken_search : world :=
  mkWorld [answer (batch "v" (Some 2000000) 50); Raise (OtherError "connection reset")] [].

(** A toy tokenizer (one identifier per character, blanks dropped) and a
    classifier with a fixed answer. *)
Fixpoint char_ids (s : string) : list Z :=
  match s with
  | EmptyString => []
  | String c s' =>
      if PyStr.space_byte c then char_ids s' else Z.of_N (N_of_ascii c) :: char_ids s'
  end.

Definition classifier (max_len : Z) : Transformer.Classifier := {|
  Transformer.encode := char_ids;
  Transformer.cls_token_id := 101;
  Transformer.sep_token_id := 102;
  Transformer.model_max_length := max_len;
  Transformer.predict := fun _ => (1 # 4, 3 # 4)%Q |}.

End Mock.

(** ** Observations on a run *)

Definition is_metadata (e : event) : bool :=
  match e with EvMetadata _ => true | _ => false end.

(** The number of requests to the metadata service in a trace *)
Definition meta_requests (tr : list event) : nat := length (filter is_metadata tr).

(** A row a tier may hold: a non-empty transcript and a view count in the
    half-open range of the tier *)
Definition accepted (lo : Z) (hi : Sampler.bound) (r : VideoRecord) : Prop :=
  transcript r <> "" /\ lo <= views r /\
  match hi with
  | Sampler.Finite m => views r < m
  | Sampler.Infinity => True
  end.

(** The dictionary [collected] of a tier: distinct keys, each record filed
    under its own identifier *)
Definition well_collected (lo : Z) (hi : Sampler.bound) (c : Sampler.dict) : Prop :=
  NoDup (map fst c) /\
  Forall (fun kv => video_id (snd kv) = fst kv /\ accepted lo hi (snd kv)) c.

(** The rows one tier contributes to the output file *)
Definition tier_block (lo : Z) (hi : Sampler.bound) (rows : list VideoRecord) : Prop :=
  Z.of_nat (length rows) = Sampler.TARGET_PER_TIER /\
  NoDup (map video_id rows) /\
  Forall (accepted lo hi) rows.

(** The URL the metadata of a video is asked at *)
Definition watch_url (video_id : string) : string :=
  "https://www.youtube.com/watch?v=" ++ video_id.

(** [subseq l m]: [l] is [m] with some elements left out, in the same order *)
Inductive subseq {A : Type} : list A -> list A -> Prop :=
| subseq_nil : subseq [] []
| subseq_skip (x : A) (l m : list A) : subseq l m -> subseq l (x :: m)
| subseq_keep (x : A) (l m : list A) : subseq l m -> subseq (x :: l) (x :: m).

(** The inputs the classifier is run on: every window between the two
    boundary markers, as the loop over [id_chunks] builds them *)
Definition model_inputs `{Transformer.Classifier} (id_chunks : list (list Z))
    : list (list Z) :=
  map (fun ids => [Transformer.cls_token_id] ++ ids ++ [Transformer.sep_token_id])%list
      id_chunks.

(** A dictionary entry built from one of the candidates [es] that lies in
    the tier, with a non-empty transcript *)
Definition built_from (lo : Z) (hi : Sampler.bound) (es : list video_info)
    (kv : option string * VideoRecord) : Prop :=
  exists e t,
    In e es /\ kv = (e_id e, Sampler.record_of e t) /\ t <> "" /\
    Sampler.in_tier lo hi (py_or0 (e_view_count e)) = true.

(** A request for the transcript of one of the candidates [es] *)
Definition asks_for (es : list video_info) (ev : event) : Prop :=
  exists e, In e es /\ ev = EvTranscript (e_id e).

(** * Properties *)

(** ** Strings *)

Section StringFacts.

Import PyStr.

Lemma endswith_refl (s : string) : endswith s s = true.
Proof. destruct s; cbn [endswith]; rewrite String.eqb_refl; reflexivity. Qed.

Lemma endswith_app (p suf : string) : endswith (p ++ suf) suf = true.
Proof.
  induction p as [|c p IH]; cbn [append endswith].
  - apply endswith_refl.
  - rewrite IH. destruct (String.eqb (String c (p ++ suf)) suf); reflexivity.
Qed.

Lemma endswith_inv (s suf : string) :
  endswith s suf = true -> exists p, s = p ++ suf.
Proof.
  induction s as [|c s IH]; cbn [endswith].
  - destruct suf; simpl; [intros _; exists ""; reflexivity | discriminate].
  - destruct (String.eqb (String c s) suf) eqn:E.
    + apply String.eqb_eq in E. intros _. exists "". simpl. exact E.
    + intros Hs. destruct (IH Hs) as [p ->]. exists (String c p). reflexivity.
Qed.

Lemma rstrip_app_keep (f : ascii -> bool) (p q : string) :
  rstrip_set f q <> "" -> rstrip_set f (p ++ q) = p ++ rstrip_set f q.
Proof.
  intros Hq. induction p as [|c p IH]; simpl; [reflexivity|].
  rewrite IH. destruct (p ++ rstrip_set f q) eqn:E; [|reflexivity].
  destruct p; simpl in E; [contradiction | discriminate].
Qed.

Lemma rstrip_no_trailing (f : ascii -> bool) (c : ascii) (s : string) :
  (forall d, f d = true -> d = c) ->
  endswith s (String c "") = false -> rstrip_set f s = s.
Proof.
  intros Hf. induction s as [|d s IH]; cbn [endswith rstrip_set]; [reflexivity|].
  destruct (String.eqb (String d s) (String c "")) eqn:E; [discriminate|].
  intros Hs. destruct s as [|d' s'].
  - cbn [rstrip_set]. destruct (f d) eqn:Fd; [|reflexivity].
    apply Hf in Fd. subst d. rewrite String.eqb_refl in E. discriminate.
  - rewrite (IH Hs). reflexivity.
Qed.

End StringFacts.

(** ** White space and stripping *)

Section StripFacts.

Import PyStr.

Lemma append_nil_r (s : string) : (s ++ "")%string = s.
Proof. induction s as [|c s IH]; cbn [append]; [reflexivity | rewrite IH; reflexivity]. Qed.

Lemma append_assoc (a b c : string) : ((a ++ b) ++ c = a ++ (b ++ c))%string.
Proof. induction a as [|d a IH]; cbn [append]; [reflexivity | rewrite IH; reflexivity]. Qed.

Lemma count_char_app (c : ascii) (a b : string) :
  count_char c (a ++ b) = (count_char c a + count_char c b)%nat.
Proof. induction a as [|d a IH]; cbn [append count_char]; [reflexivity | lia]. Qed.

Lemma take_drop (n : nat) (s : string) : (take n s ++ drop n s)%string = s.
Proof.
  revert s. induction n as [|n IH]; intros [|a r]; cbn [take drop append]; try reflexivity.
  rewrite IH. reflexivity.
Qed.

Lemma take_all (s : string) : take (String.length s) s = s.
Proof. induction s as [|a r IH]; cbn [String.length take]; [reflexivity | rewrite IH; reflexivity]. Qed.

Lemma length_drop (n : nat) (s : string) :
  String.length (drop n s) = (String.length s - n)%nat.
Proof.
  revert s. induction n as [|n IH]; intros [|a r]; cbn [drop String.length]; try lia.
  apply IH.
Qed.

Lemma drop_app (n : nat) (a b : string) :
  (n <= String.length a)%nat -> drop n (a ++ b) = (drop n a ++ b)%string.
Proof.
  revert a. induction n as [|n IH]; intros [|x a] Hn; cbn [drop append String.length] in *;
    try reflexivity; try lia.
  apply IH. lia.
Qed.

Lemma space_len_le (s : string) : (space_len s <= String.length s)%nat.
Proof.
  destruct s as [|a [|b [|c r]]]; cbn [space_len String.length];
    repeat match goal with |- context [if ?t then _ else _] => destruct t end; lia.
Qed.

Lemma space_len_app (a b : string) :
  space_len a <> 0%nat -> space_len (a ++ b) = space_len a.
Proof.
  destruct a as [|x [|y [|z r]]]; cbn [space_len append]; intros Hk;
    try (elim Hk; reflexivity);
    destruct (space_byte x); try reflexivity; try (elim Hk; reflexivity);
    destruct (space_pair x y); try reflexivity; try (elim Hk; reflexivity).
Qed.

Lemma lstrip_eq (s : string) :
  lstrip s = match space_len s with
             | O => s
             | S _ => lstrip (drop (space_len s) s)
             end.
Proof.
  destruct s as [|a [|b [|c r]]]; cbn [lstrip space_len];
    try reflexivity;
    destruct (space_byte a); try reflexivity;
    try (destruct (space_pair a b); try reflexivity);
    try (destruct (space_triple a b c); reflexivity).
Qed.

Lemma all_space_eq (s : string) :
  s <> "" ->
  all_space s = match space_len s with
                | O => false
                | S _ => all_space (drop (space_len s) s)
                end.
Proof.
  destruct s as [|a [|b [|c r]]]; cbn [all_space space_len]; intros Hs;
    try (elim Hs; reflexivity);
    destruct (space_byte a); try reflexivity;
    try (destruct (space_pair a b); try reflexivity);
    try (destruct (space_triple a b c); reflexivity).
Qed.

(** One white-space character is a text of white space. *)
Lemma all_space_one (s : string) :
  space_len s <> 0%nat -> all_space (take (space_len s) s) = true.
Proof.
  destruct s as [|a [|b [|c r]]]; cbn [space_len]; intros Hk;
    try (elim Hk; reflexivity);
    destruct (space_byte a) eqn:E1;
    try (cbn [take all_space]; rewrite E1; reflexivity);
    try (elim Hk; reflexivity);
    destruct (space_pair a b) eqn:E2;
    try (cbn [take all_space]; rewrite E1, E2; reflexivity);
    try (elim Hk; reflexivity);
    destruct (space_triple a b c) eqn:E3;
    try (cbn [take all_space]; rewrite E1, E2, E3; reflexivity);
    elim Hk; reflexivity.
Qed.

Lemma length_take_space (s : string) :
  String.length (take (space_len s) s) = space_len s.
Proof.
  pose proof (space_len_le s) as Hle. revert Hle. generalize (space_len s) as n.
  intros n. revert s. induction n as [|n IH]; intros [|a r] Hle;
    cbn [take String.length] in *; try reflexivity; try lia.
  rewrite IH by lia. reflexivity.
Qed.

Lemma all_space_app (a b : string) :
  all_space a = true -> all_space b = true -> all_space (a ++ b) = true.
Proof.
  intros Ha Hb.
  assert (Hgen : forall n a, (String.length a <= n)%nat ->
                   all_space a = true -> all_space (a ++ b) = true).
  { clear a Ha. induction n as [|n IH]; intros a Hn Ha.
    - destruct a; [exact Hb | cbn in Hn; lia].
    - destruct a as [|x a']; [exact Hb|].
      rewrite all_space_eq in Ha by discriminate.
      destruct (space_len (String x a')) as [|k] eqn:Ek; [discriminate|].
      rewrite all_space_eq by discriminate.
      rewrite space_len_app by (rewrite Ek; discriminate). rewrite Ek.
      pose proof (space_len_le (String x a')) as Hle. rewrite Ek in Hle.
      rewrite drop_app by exact Hle.
      apply IH; [|exact Ha].
      rewrite length_drop. cbn [String.length] in *. lia. }
  apply (Hgen (String.length a) a (le_n _) Ha).
Qed.

(** [lstrip] takes a text of white space off the front. *)
Lemma lstrip_decomp (s : string) :
  exists pre, s = (pre ++ lstrip s)%string /\ all_space pre = true.
Proof.
  assert (Hgen : forall n s, (String.length s <= n)%nat ->
                   exists pre, s = (pre ++ lstrip s)%string /\ all_space pre = true).
  { induction n as [|n IH]; intros t Hn; rewrite lstrip_eq.
    - destruct t; [|cbn in Hn; lia]. exists "". split; reflexivity.
    - destruct (space_len t) as [|k] eqn:Ek; [exists ""; split; reflexivity|].
      destruct (IH (drop (S k) t)) as (pre & Hpre & Hsp).
      { rewrite length_drop. lia. }
      exists (take (S k) t ++ pre)%string. split.
      + rewrite append_assoc, <- Hpre. symmetry. apply take_drop.
      + apply all_space_app; [|exact Hsp].
        rewrite <- Ek. apply all_space_one. rewrite Ek. discriminate. }
  apply (Hgen (String.length s) s (le_n _)).
Qed.

(** What [lstrip] leaves starts with no white space. *)
Lemma lstrip_head (s : string) : space_len (lstrip s) = 0%nat.
Proof.
  assert (Hgen : forall n s, (String.length s <= n)%nat -> space_len (lstrip s) = 0%nat).
  { induction n as [|n IH]; intros t Hn; rewrite lstrip_eq.
    - destruct t; [reflexivity | cbn in Hn; lia].
    - destruct (space_len t) as [|k] eqn:Ek; [exact Ek|].
      apply IH. rewrite length_drop. lia. }
  apply (Hgen (String.length s) s (le_n _)).
Qed.

Lemma lstrip_fixed (s : string) : space_len s = 0%nat -> lstrip s = s.
Proof. intros Hs. rewrite lstrip_eq, Hs. reflexivity. Qed.

Lemma lstrip_blank (s : string) : all_space s = true -> lstrip s = "".
Proof.
  assert (Hgen : forall n s, (String.length s <= n)%nat ->
                   all_space s = true -> lstrip s = "").
  { induction n as [|n IH]; intros t Hn Ht.
    - destruct t; [reflexivity | cbn in Hn; lia].
    - destruct t as [|x t']; [reflexivity|].
      rewrite all_space_eq in Ht by discriminate. rewrite lstrip_eq.
      destruct (space_len (String x t')) as [|k] eqn:Ek; [discriminate|].
      apply IH; [|exact Ht]. rewrite length_drop. cbn [String.length] in *. lia. }
  apply (Hgen (String.length s) s (le_n _)).
Qed.

Lemma all_space_head (a b : string) :
  all_space a = true -> a <> "" -> space_len (a ++ b) <> 0%nat.
Proof.
  intros Ha Hne. rewrite all_space_eq in Ha by exact Hne.
  destruct (space_len a) as [|k] eqn:Ek; [discriminate|].
  rewrite space_len_app by (rewrite Ek; discriminate). rewrite Ek. discriminate.
Qed.

(** [rstrip] takes a text of white space off the end. *)
Lemma rstrip_decomp (s : string) :
  exists post, s = (rstrip s ++ post)%string /\ all_space post = true.
Proof.
  induction s as [|a r (post & Hpost & Hsp)]; [exists ""; split; reflexivity|].
  cbn [rstrip]. destruct (all_space (String a r)) eqn:E.
  - exists (String a r). split; [reflexivity | exact E].
  - exists post. cbn [append]. rewrite <- Hpost. split; [reflexivity | exact Hsp].
Qed.

Lemma rstrip_blank (s : string) : all_space s = true -> rstrip s = "".
Proof. destruct s as [|a r]; [reflexivity|]. intros Hs. cbn [rstrip]. rewrite Hs. reflexivity. Qed.

(** What [rstrip] leaves ends with no white space. *)
Lemma rstrip_no_suffix (s a b : string) :
  rstrip s = (a ++ b)%string -> b <> "" -> all_space b = false.
Proof.
  revert a. induction s as [|x r IH]; intros a Hs Hb.
  - cbn in Hs. destruct a; [cbn in Hs; subst b; contradiction | discriminate].
  - cbn [rstrip] in Hs. destruct (all_space (String x r)) eqn:E.
    + destruct a; [cbn in Hs; subst b; contradiction | discriminate].
    + destruct a as [|y a'].
      * cbn [append] in Hs. subst b.
        destruct (all_space (String x (rstrip r))) eqn:E2; [|reflexivity].
        destruct (rstrip_decomp r) as (post & Hpost & Hsp).
        pose proof (all_space_app _ _ E2 Hsp) as Hall.
        cbn [append] in Hall. rewrite <- Hpost in Hall. congruence.
      * cbn [append] in Hs. injection Hs as _ Hs. exact (IH a' Hs Hb).
Qed.

Lemma rstrip_fixed (t : string) :
  (forall a b, t = (a ++ b)%string -> b <> "" -> all_space b = false) -> rstrip t = t.
Proof.
  induction t as [|x r IH]; intros Hsuf; [reflexivity|].
  cbn [rstrip]. rewrite (Hsuf "" (String x r) eq_refl) by discriminate.
  rewrite IH; [reflexivity|].
  intros a b Hr Hb. apply (Hsuf (String x a) b); [rewrite Hr; reflexivity | exact Hb].
Qed.

Lemma ends_with_space_suffix (t : string) :
  ends_with_space t = true ->
  exists a w, t = (a ++ w)%string /\ w <> "" /\ all_space w = true.
Proof.
  induction t as [|x r IH]; cbn [ends_with_space]; [discriminate|].
  intros Ht. apply orb_prop in Ht. destruct Ht as [Hone|Hr].
  - apply andb_prop in Hone. destruct Hone as [Hstart Hlen].
    apply Nat.eqb_eq in Hlen. unfold starts_with_space in Hstart.
    exists "", (String x r). split; [reflexivity|]. split; [discriminate|].
    rewrite <- (take_all (String x r)), <- Hlen. apply all_space_one.
    intros Hz. rewrite Hz in Hstart. discriminate.
  - destruct (IH Hr) as (a & w & Hw & Hne & Hsp).
    exists (String x a), w. rewrite Hw. auto.
Qed.

Lemma strip_no_suffix (s a b : string) :
  strip s = (a ++ b)%string -> b <> "" -> all_space b = false.
Proof.
  intros Hs Hb. destruct (lstrip_decomp (rstrip s)) as (pre & Hpre & _).
  fold (strip s) in Hpre. rewrite Hs, <- append_assoc in Hpre.
  exact (rstrip_no_suffix s _ b Hpre Hb).
Qed.

(** [strip] takes a text of white space off each end of the text... *)
Lemma strip_decomp (s : string) :
  exists pre post,
    s = (pre ++ strip s ++ post)%string /\ all_space pre = true /\ all_space post = true.
Proof.
  destruct (rstrip_decomp s) as (post & Hpost & Hsp).
  destruct (lstrip_decomp (rstrip s)) as (pre & Hpre & Hsp').
  exists pre, post. split; [|split; assumption].
  rewrite <- append_assoc. unfold strip. rewrite <- Hpre. exact Hpost.
Qed.

(** ... and leaves a text with no white space at either end. *)
Lemma strip_ends (s : string) :
  starts_with_space (strip s) = false /\ ends_with_space (strip s) = false.
Proof.
  split.
  - unfold starts_with_space, strip. rewrite lstrip_head. reflexivity.
  - destruct (ends_with_space (strip s)) eqn:E; [|reflexivity].
    destruct (ends_with_space_suffix _ E) as (a & w & Hw & Hne & Hsp).
    rewrite (strip_no_suffix s a w Hw Hne) in Hsp. discriminate.
Qed.

(** The stripped text is empty when the text is white space, and only then. *)
Lemma strip_blank_iff (s : string) : strip s = "" <-> all_space s = true.
Proof.
  split.
  - intros Hs. destruct (strip_decomp s) as (pre & post & Hd & Hpre & Hpost).
    rewrite Hs in Hd. cbn [append] in Hd. rewrite Hd. apply all_space_app; assumption.
  - intros Hs. unfold strip. rewrite (rstrip_blank s Hs). reflexivity.
Qed.

Lemma strip_idem (s : string) : strip (strip s) = strip s.
Proof.
  unfold strip at 1. rewrite rstrip_fixed.
  - apply lstrip_fixed. unfold strip. apply lstrip_head.
  - intros a b Hs Hb. exact (strip_no_suffix s a b Hs Hb).
Qed.

Lemma strip_leading_space (c : ascii) (s : string) :
  space_byte c = true -> strip (String c s) = strip s.
Proof.
  intros Hc. unfold strip. cbn [rstrip].
  assert (Hall : all_space (String c s) = all_space s).
  { cbn [all_space]. rewrite Hc. reflexivity. }
  rewrite Hall. destruct (all_space s) eqn:E.
  - rewrite (rstrip_blank s E). reflexivity.
  - cbn [lstrip]. rewrite Hc. reflexivity.
Qed.

Lemma count_char_strip (c : ascii) (s : string) :
  (count_char c (strip s) <= count_char c s)%nat.
Proof.
  destruct (strip_decomp s) as (pre & post & Hd & _).
  rewrite Hd at 2. rewrite !count_char_app. lia.
Qed.

End StripFacts.

(** ** The channel-reference normalizer *)

Section Normalizer.

Import PyStr Channel.

Lemma rstrip_videos (p : string) :
  rstrip_set is_slash (p ++ "/videos") = p ++ "/videos".
Proof. apply (rstrip_app_keep is_slash p "/videos"). discriminate. Qed.

Lemma normalize_canonical (url : string) :
  endswith (rstrip_set is_slash (normalize_to_videos_page url)) "/videos" = true.
Proof.
  unfold normalize_to_videos_page.
  destruct (endswith (rstrip_set is_slash url) "/videos") eqn:E; [exact E|].
  rewrite rstrip_videos. apply endswith_app.
Qed.

(** C7, as the code has it: the test and the append both work on the input
    without its trailing slashes.  An input that ends with "/videos" is
    returned as it is; an input with no trailing slash that does not end with
    "/videos" gets "/videos" appended; in general the input is returned when,
    trailing slashes removed, it ends with "/videos", and otherwise the input
    without its trailing slashes is returned with "/videos" appended.  The
    function is total, its result always is a "/videos" page, and normalizing
    twice changes nothing more. *)
Theorem normalize_to_videos_page_spec (url : string) :
  (endswith url "/videos" = true -> normalize_to_videos_page url = url) /\
  (endswith url "/" = false -> endswith url "/videos" = false ->
   normalize_to_videos_page url = url ++ "/videos") /\
  (endswith (rstrip_set is_slash url) "/videos" = true ->
   normalize_to_videos_page url = url) /\
  (endswith (rstrip_set is_slash url) "/videos" = false ->
   normalize_to_videos_page url = rstrip_set is_slash url ++ "/videos") /\
  endswith (rstrip_set is_slash (normalize_to_videos_page url)) "/videos" = true /\
  normalize_to_videos_page (normalize_to_videos_page url) = normalize_to_videos_page url.
Proof.
  repeat split.
  - intros Hs. apply endswith_inv in Hs. destruct Hs as [p ->].
    unfold normalize_to_videos_page. rewrite rstrip_videos, endswith_app. reflexivity.
  - intros Hslash Hv. unfold normalize_to_videos_page.
    rewrite (rstrip_no_trailing is_slash "/" url); [rewrite Hv; reflexivity | | exact Hslash].
    intros d Hd. unfold is_slash in Hd. apply Ascii.eqb_eq in Hd. exact Hd.
  - intros Hs. unfold normalize_to_videos_page. rewrite Hs. reflexivity.
  - intros Hs. unfold normalize_to_videos_page. rewrite Hs. reflexivity.
  - apply normalize_canonical.
  - unfold normalize_to_videos_page at 1. rewrite normalize_canonical. reflexivity.
Qed.

(** C7 as stated fails on a channel URL with a trailing slash: it does not
    end with "/videos", yet the result is not the input with "/videos"
    appended (the slash is dropped first).  Nor is an input that is no channel
    URL at all returned unchanged. *)
Lemma normalize_appends_after_stripping :
  endswith "https://www.youtube.com/@CosmicSkeptic/" "/videos" = false /\
  normalize_to_videos_page "https://www.youtube.com/@CosmicSkeptic/"
    = "https://www.youtube.com/@CosmicSkeptic/videos" /\
  normalize_to_videos_page "https://www.youtube.com/@CosmicSkeptic/"
    <> "https://www.youtube.com/@CosmicSkeptic/" ++ "/videos" /\
  normalize_to_videos_page "not a channel" <> "not a channel".
Proof. repeat split; try reflexivity; discriminate. Qed.

Example normalize_handle :
  normalize_to_videos_page CHANNEL_URL = "https://www.youtube.com/@CosmicSkeptic/videos".
Proof. reflexivity. Qed.

Example normalize_videos_slash :
  normalize_to_videos_page "https://www.youtube.com/c/Name/videos/"
    = "https://www.youtube.com/c/Name/videos/".
Proof. reflexivity. Qed.

End Normalizer.

(** ** The transcript chunker *)

Section Chunker.

Import PySeq Transformer.

Lemma range_up_unfold (i stop step : Z) :
  range_up i stop step =
  if (i <? stop) && (0 <? step) then i :: range_up (i + step) stop step else [].
Proof.
  funelim (range_up i stop step).
  - rewrite e. reflexivity.
  - rewrite e. reflexivity.
Qed.

Lemma ceil_div_spec (a b : Z) :
  0 < b -> b * (ceil_div a b - 1) < a <= b * ceil_div a b.
Proof.
  intros Hb. unfold ceil_div.
  pose proof (Z.div_mod (a + b - 1) b ltac:(lia)) as Hdm.
  pose proof (Z.mod_pos_bound (a + b - 1) b Hb) as Hm.
  lia.
Qed.

Lemma ceil_div_step (n b : Z) :
  0 < b -> 0 < n -> ceil_div n b = 1 + ceil_div (Z.max 0 (n - b)) b.
Proof.
  intros Hb Hn. unfold ceil_div.
  destruct (Z.le_gt_cases b n) as [Hle|Hgt].
  - rewrite Z.max_r by lia.
    replace (n + b - 1) with ((n - b + b - 1) + 1 * b) by lia.
    rewrite Z.div_add by lia. lia.
  - rewrite Z.max_l by lia.
    replace (n + b - 1) with ((n - 1) + 1 * b) by lia.
    rewrite Z.div_add by lia.
    rewrite (Z.div_small (n - 1) b) by lia.
    rewrite (Z.div_small (0 + b - 1) b) by lia. lia.
Qed.

Lemma slice_window {A} (l : list A) (i c : Z) :
  0 <= i < Z.of_nat (length l) -> 0 < c ->
  slice l i (i + c) = firstn (Z.to_nat c) (skipn (Z.to_nat i) l).
Proof.
  intros Hi Hc. unfold slice, clamp.
  destruct (i <? 0) eqn:E1; [apply Z.ltb_lt in E1; lia|].
  destruct (i + c <? 0) eqn:E2; [apply Z.ltb_lt in E2; lia|].
  rewrite (Z.min_l i) by lia.
  destruct (Z.le_gt_cases (i + c) (Z.of_nat (length l))) as [Hle|Hgt].
  - rewrite Z.min_l by lia. f_equal. lia.
  - rewrite Z.min_r by lia.
    rewrite !firstn_all2; [reflexivity | |]; rewrite length_skipn; lia.
Qed.

(** The windows cut from position [i] on: they rebuild the rest of the
    sequence, there are [ceil ((L - i) / c)] of them, and each holds between
    one and [c] identifiers. *)
Lemma windows_from {A} (l : list A) (c : Z) (n : nat) :
  0 < c ->
  forall i, 0 <= i -> (Z.to_nat (Z.of_nat (length l) - i) <= n)%nat ->
  let ws := map (fun j => slice l j (j + c)) (range_up i (Z.of_nat (length l)) c) in
  concat ws = skipn (Z.to_nat i) l /\
  Z.of_nat (length ws) = ceil_div (Z.max 0 (Z.of_nat (length l) - i)) c /\
  Forall (fun w => 0 < Z.of_nat (length w) <= c) ws.
Proof.
  intros Hc. induction n as [|n IH]; intros i Hi Hn; cbv zeta;
    rewrite range_up_unfold.
  - destruct (i <? Z.of_nat (length l)) eqn:E; [apply Z.ltb_lt in E; lia|].
    apply Z.ltb_ge in E. cbn [andb map concat length].
    rewrite skipn_all2 by lia. rewrite Z.max_l by lia.
    unfold ceil_div. rewrite Z.div_small by lia. auto.
  - destruct (i <? Z.of_nat (length l)) eqn:E.
    + apply Z.ltb_lt in E.
      assert (Hstep : (0 <? c) = true) by (apply Z.ltb_lt; exact Hc).
      rewrite Hstep. cbn [andb map concat length].
      destruct (IH (i + c) ltac:(lia) ltac:(lia)) as (Hcat & Hlen & Hall).
      rewrite slice_window by lia.
      repeat split.
      * rewrite Hcat.
        replace (Z.to_nat (i + c)) with (Z.to_nat c + Z.to_nat i)%nat by lia.
        rewrite <- skipn_skipn. apply firstn_skipn.
      * rewrite Nat2Z.inj_succ, Hlen.
        rewrite (ceil_div_step (Z.max 0 (Z.of_nat (length l) - i)) c) by lia.
        replace (Z.max 0 (Z.of_nat (length l) - i) - c)
          with (Z.of_nat (length l) - (i + c)) by lia.
        lia.
      * constructor; [|exact Hall].
        rewrite length_firstn, length_skipn. lia.
    + apply Z.ltb_ge in E. cbn [andb map concat length].
      rewrite skipn_all2 by lia. rewrite Z.max_l by lia.
      unfold ceil_div. rewrite Z.div_small by lia. auto.
Qed.

Context `{Classifier}.

(** C1: for a positive chunk size [c] and a transcript of [L] identifiers
    [transcript_to_id_chunks] returns [ceil (L / c)] windows, each of at
    least one and at most [c] identifiers, whose concatenation in order is the
    identifier sequence; an empty tokenization gives no window. *)
Theorem transcript_to_id_chunks_windows (text : string) (c : Z) :
  0 < c ->
  exists chunks,
    transcript_to_id_chunks text c = Ok chunks /\
    Z.of_nat (length chunks) = ceil_div (Z.of_nat (length (encode text))) c /\
    Forall (fun w => 0 < Z.of_nat (length w) <= c) chunks /\
    concat chunks = encode text /\
    (encode text = [] -> chunks = []).
Proof.
  intros Hc. unfold transcript_to_id_chunks, range.
  destruct (c =? 0) eqn:E0; [apply Z.eqb_eq in E0; lia|].
  assert (Hstep : (0 <? c) = true) by (apply Z.ltb_lt; exact Hc).
  rewrite Hstep. eexists. split; [reflexivity|].
  destruct (windows_from (encode text) c (length (encode text)) Hc 0 ltac:(lia) ltac:(lia))
    as (Hcat & Hlen & Hall).
  repeat split.
  - rewrite Hlen. f_equal. lia.
  - exact Hall.
  - exact Hcat.
  - intros Hempty. rewrite Hempty. reflexivity.
Qed.

End Chunker.

(** ** Running the monad *)

Section MonadFacts.

Context {W : Type} `{Services W}.

Lemma attempt_eq {A} (c : M W A) st :
  attempt c st = (Ok (fst (c st)), snd (c st)).
Proof. unfold attempt. destruct (c st). reflexivity. Qed.

Lemma call_video_eq url (st : state W) :
  call_video url st =
  (fst (extract_video url (world st)),
   mkState (snd (extract_video url (world st))) (trace st ++ [EvMetadata url]) (csv st)).
Proof. unfold call_video. destruct (extract_video url (world st)). reflexivity. Qed.

Lemma call_transcript_eq vid (st : state W) :
  call_transcript vid st =
  (fst (get_transcript vid (world st)),
   mkState (snd (get_transcript vid (world st))) (trace st ++ [EvTranscript vid]) (csv st)).
Proof. unfold call_transcript. destruct (get_transcript vid (world st)). reflexivity. Qed.

Lemma call_listing_eq url (st : state W) :
  call_listing url st =
  (fst (extract_listing url (world st)),
   mkState (snd (extract_listing url (world st))) (trace st ++ [EvListing url]) (csv st)).
Proof. unfold call_listing. destruct (extract_listing url (world st)). reflexivity. Qed.

Lemma throttle_eq (st : state W) :
  Channel.throttle st =
  (Ok tt,
   let dw := random_uniform Channel.MIN_PAUSE Channel.MAX_PAUSE (world st) in
   mkState (during_sleep (fst dw) (snd dw)) (trace st ++ [EvSleep (fst dw)]) (csv st)).
Proof.
  unfold Channel.throttle, bind, uniform, sleep.
  destruct (random_uniform _ _ (world st)). reflexivity.
Qed.

(** [fetch_transcript] by cases on the provider's answer *)
Lemma fetch_transcript_eq vid (st : state W) :
  fetch_transcript vid st =
  let st1 := mkState (snd (get_transcript vid (world st)))
                     (trace st ++ [EvTranscript vid]) (csv st) in
  match fst (get_transcript vid (world st)) with
  | Raise e => (Raise e, st1)
  | Ok segs =>
      let text := PyStr.strip (PyStr.join " " (map seg_text segs)) in
      match text with
      | EmptyString => (Raise (ValueError "empty transcript"), st1)
      | _ => (Ok text, st1)
      end
  end.
Proof.
  unfold fetch_transcript, bind. rewrite call_transcript_eq. cbn [fst snd].
  destruct (fst (get_transcript vid (world st))) as [segs|e]; [|reflexivity].
  cbv zeta. destruct (PyStr.strip _); reflexivity.
Qed.

Lemma fetch_transcript_nonempty vid (st st1 : state W) text :
  fetch_transcript vid st = (Ok text, st1) -> text <> "".
Proof.
  rewrite fetch_transcript_eq. cbv zeta.
  destruct (fst (get_transcript vid (world st))) as [segs|e]; [|discriminate].
  destruct (PyStr.strip _) eqn:E; [discriminate|].
  intros [= <- _]. discriminate.
Qed.

Lemma fetch_transcript_csv vid (st st1 : state W) r :
  fetch_transcript vid st = (r, st1) -> csv st1 = csv st.
Proof.
  rewrite fetch_transcript_eq. cbv zeta.
  destruct (fst (get_transcript vid (world st))) as [segs|e].
  - destruct (PyStr.strip _); intros [= _ <-]; reflexivity.
  - intros [= _ <-]. reflexivity.
Qed.

End MonadFacts.

(** ** The metadata fetcher of the channel harvest *)

Section MetadataFetcher.

Context {W : Type} `{Services W}.

Import Channel.

Lemma meta_requests_app (a b : list event) :
  meta_requests (a ++ b) = (meta_requests a + meta_requests b)%nat.
Proof. unfold meta_requests. rewrite filter_app, length_app. reflexivity. Qed.

(** What [fetch_metadata] does, by cases on the answers of the service. *)
Lemma fetch_metadata_cases (video_id : string) (st : state W) :
  let url := watch_url video_id in
  let first := extract_video url (world st) in
  exists found delta st',
    fetch_metadata video_id st = (Ok found, st') /\
    trace st' = (trace st ++ delta)%list /\
    csv st' = csv st /\
    (1 <= meta_requests delta <= 2)%nat /\
    match fst first with
    | Ok info => found = Some info /\ delta = [EvMetadata url]
    | Raise (DownloadError msg) =>
        if is_rate_limited msg then
          exists rest,
            delta = ([EvMetadata url; EvSleep 60; EvMetadata url] ++ rest)%list /\
            match fst (extract_video url (during_sleep 60 (snd first))) with
            | Ok info => found = Some info /\ rest = []
            | Raise _ => found = None /\ exists pause, rest = [EvSleep pause]
            end
        else found = None /\ exists pause, delta = [EvMetadata url; EvSleep pause]
    | Raise _ => found = None /\ exists pause, delta = [EvMetadata url; EvSleep pause]
    end.
Proof.
  cbv zeta. unfold fetch_metadata, catch, bind, ret. fold (watch_url video_id).
  rewrite call_video_eq.
  destruct (extract_video (watch_url video_id) (world st)) as [r1 w1]. cbn [fst snd].
  assert (Hskip : forall st0 : state W,
    exists pause,
      (let (r, st2) := throttle st0 in
       match r with Ok _ => (Ok (@None video_info), st2) | Raise e => (Raise e, st2) end)
      = (Ok None, mkState (during_sleep pause (snd (random_uniform MIN_PAUSE MAX_PAUSE (world st0))))
                          (trace st0 ++ [EvSleep pause])%list (csv st0))).
  { intros st0. rewrite throttle_eq. eexists. reflexivity. }
  destruct r1 as [info|e].
  - exists (Some info), [EvMetadata (watch_url video_id)]. eexists.
    repeat split; cbn; lia.
  - assert (Hother : exists found delta st',
      (let (r, st2) := throttle (mkState w1 (trace st ++ [EvMetadata (watch_url video_id)]) (csv st)) in
       match r with Ok _ => (Ok (@None video_info), st2) | Raise e0 => (Raise e0, st2) end)
      = (Ok found, st') /\
      trace st' = (trace st ++ delta)%list /\ csv st' = csv st /\
      (1 <= meta_requests delta <= 2)%nat /\
      found = None /\ exists pause, delta = [EvMetadata (watch_url video_id); EvSleep pause]).
    { destruct (Hskip (mkState w1 (trace st ++ [EvMetadata (watch_url video_id)]) (csv st)))
        as [pause Hp].
      rewrite Hp. exists None, [EvMetadata (watch_url video_id); EvSleep pause]. eexists.
      repeat split; cbn [trace csv].
      - rewrite <- app_assoc. reflexivity.
      - cbn. lia.
      - cbn. lia.
      - exists pause. reflexivity. }
    destruct e as [ | m | msg | | m ];
      try (destruct Hother as (found & delta & st' & H1 & H2 & H3 & H4 & H5 & H6);
           exists found, delta, st'; repeat split; try assumption; apply H4).
    destruct (is_rate_limited msg) eqn:Erl.
    + unfold sleep at 1. cbn [world trace csv].
      rewrite call_video_eq. cbn [world trace csv fst snd].
      destruct (extract_video (watch_url video_id) (during_sleep 60 w1)) as [r2 w2].
      cbn [fst snd]. destruct r2 as [info2|e2].
      * exists (Some info2),
          [EvMetadata (watch_url video_id); EvSleep 60; EvMetadata (watch_url video_id)].
        eexists. repeat split; cbn [trace csv].
        -- rewrite <- !app_assoc. reflexivity.
        -- cbn. lia.
        -- cbn. lia.
        -- exists []. split; [reflexivity | split; reflexivity].
      * match goal with
        | |- context [throttle ?s] => destruct (Hskip s) as [pause Hp]; rewrite Hp
        end.
        exists None,
          ([EvMetadata (watch_url video_id); EvSleep 60; EvMetadata (watch_url video_id)]
             ++ [EvSleep pause])%list.
        eexists. repeat split; cbn [trace csv].
        -- rewrite <- !app_assoc. reflexivity.
        -- cbn. lia.
        -- cbn. lia.
        -- exists [EvSleep pause]. split; [reflexivity | split; [reflexivity|]].
           exists pause. reflexivity.
    + destruct Hother as (found & delta & st' & H1 & H2 & H3 & H4 & H5 & H6).
      exists found, delta, st'. repeat split; try assumption; apply H4.
Qed.

End MetadataFetcher.

Section ChannelLoop.

Context {W : Type} `{Services W}.

Import Channel.

Lemma fetch_transcript_trace vid (st st1 : state W) r :
  fetch_transcript vid st = (r, st1) -> trace st1 = (trace st ++ [EvTranscript vid])%list.
Proof.
  rewrite fetch_transcript_eq. cbv zeta.
  destruct (fst (get_transcript vid (world st))) as [segs|e].
  - destruct (PyStr.strip _); intros [= _ <-]; reflexivity.
  - intros [= _ <-]. reflexivity.
Qed.

(** One iteration of the loop over the uploads never raises, asks the
    metadata service at most twice and writes at most one row, which carries
    the non-empty transcript fetched for the entry. *)
Lemma process_entry_total (entry : video_info) (st : state W) :
  exists st',
    process_entry entry st = (Ok tt, st') /\
    (meta_requests (trace st') <= meta_requests (trace st) + 2)%nat /\
    (csv st' = csv st \/
     exists video_id info transcript,
       e_id entry = Some video_id /\ transcript <> "" /\
       csv st' = (csv st ++ [row_of video_id info transcript])%list).
Proof.
  unfold process_entry.
  destruct (e_id entry) as [video_id|]; [|exists st; unfold ret; auto with arith].
  destruct (negb (PyStr.truthy video_id)); [exists st; unfold ret; auto with arith|].
  unfold bind at 1. rewrite attempt_eq.
  destruct (fetch_transcript (Some video_id) st) as [r st1] eqn:Ef. cbn [fst snd].
  pose proof (fetch_transcript_trace _ _ _ _ Ef) as Htr.
  pose proof (fetch_transcript_csv _ _ _ _ Ef) as Hcsv.
  assert (Hm1 : meta_requests (trace st1) = meta_requests (trace st)).
  { rewrite Htr, meta_requests_app. cbn. lia. }
  destruct r as [transcript|e].
  - destruct (fetch_metadata_cases video_id st1)
      as (found & delta & st2 & Hf & Htr2 & Hcsv2 & Hcount & _).
    unfold bind at 1. rewrite Hf.
    assert (Hm2 : (meta_requests (trace st2) <= meta_requests (trace st) + 2)%nat).
    { rewrite Htr2, meta_requests_app. lia. }
    destruct found as [info|].
    + unfold bind, writerow. rewrite throttle_eq. eexists.
      split; [reflexivity|]. cbn [trace csv world]. split.
      * rewrite meta_requests_app. cbn. lia.
      * right. exists video_id, info, transcript.
        split; [reflexivity|]. split.
        -- eapply fetch_transcript_nonempty. exact Ef.
        -- rewrite Hcsv2, Hcsv. reflexivity.
    + exists st2. unfold ret. split; [reflexivity|]. split; [exact Hm2|].
      left. congruence.
  - assert (Ht : exists st', throttle st1 = (Ok tt, st') /\
              (meta_requests (trace st') <= meta_requests (trace st) + 2)%nat /\
              csv st' = csv st).
    { rewrite throttle_eq. eexists. split; [reflexivity|].
      cbn [trace csv world]. split.
      - rewrite meta_requests_app. cbn. lia.
      - exact Hcsv. }
    destruct Ht as (st' & Ht & Hm & Hc).
    exists st'. split; [destruct e; exact Ht|]. auto.
Qed.

(** When the metadata fetch gives up on a video, the iteration ends without
    a row and without an exception. *)
Lemma process_entry_skips (entry : video_info) (video_id transcript : string)
    (st st1 st2 : state W) :
  e_id entry = Some video_id -> video_id <> "" ->
  fetch_transcript (Some video_id) st = (Ok transcript, st1) ->
  fetch_metadata video_id st1 = (Ok None, st2) ->
  process_entry entry st = (Ok tt, st2) /\ csv st2 = csv st.
Proof.
  intros Hid Hne Ht Hm. unfold process_entry. rewrite Hid.
  destruct video_id as [|c v]; [contradiction|]. cbn [PyStr.truthy negb].
  unfold bind at 1. rewrite attempt_eq, Ht. cbn [fst snd].
  unfold bind at 1. rewrite Hm. unfold ret. split; [reflexivity|].
  destruct (fetch_metadata_cases (String c v) st1)
    as (found & delta & st2' & Hf & _ & Hcsv2 & _).
  rewrite Hm in Hf. injection Hf as _ <-.
  rewrite Hcsv2. eapply fetch_transcript_csv. exact Ht.
Qed.

(** The loop over the uploads runs to its end whatever the services answer. *)
Lemma uploads_loop_total (es : list video_info) (st : state W) :
  exists st',
    for_each process_entry es st = (Ok tt, st') /\
    (meta_requests (trace st') <= meta_requests (trace st) + 2 * length es)%nat.
Proof.
  revert st. induction es as [|e es IH]; intros st.
  - exists st. cbn. unfold ret. split; [reflexivity | lia].
  - destruct (process_entry_total e st) as (st1 & He & Hm & _).
    destruct (IH st1) as (st2 & Hes & Hm2).
    exists st2. cbn [for_each]. unfold bind at 1. rewrite He.
    split; [exact Hes|]. cbn [length]. lia.
Qed.

(** C3: the metadata of a video is asked once; on a [DownloadError] whose
    text, in lower case, contains "rate-limited" the script sleeps 60 seconds
    and asks once more; on any other error, or when the second request fails,
    the video is skipped: no row is written and nothing is raised.  An
    iteration never asks more than twice, and the loop over the uploads always
    runs to its end. *)
Theorem metadata_fetch_retries_once :
  (forall (video_id : string) (st : state W),
     let url := watch_url video_id in
     let first := extract_video url (world st) in
     exists found delta st',
       fetch_metadata video_id st = (Ok found, st') /\
       trace st' = (trace st ++ delta)%list /\
       csv st' = csv st /\
       (1 <= meta_requests delta <= 2)%nat /\
       match fst first with
       | Ok info => found = Some info /\ delta = [EvMetadata url]
       | Raise (DownloadError msg) =>
           if is_rate_limited msg then
             exists rest,
               delta = ([EvMetadata url; EvSleep 60; EvMetadata url] ++ rest)%list /\
               match fst (extract_video url (during_sleep 60 (snd first))) with
               | Ok info => found = Some info /\ rest = []
               | Raise _ => found = None /\ exists pause, rest = [EvSleep pause]
               end
           else found = None /\ exists pause, delta = [EvMetadata url; EvSleep pause]
       | Raise _ => found = None /\ exists pause, delta = [EvMetadata url; EvSleep pause]
       end) /\
  (forall (entry : video_info) (video_id transcript : string) (st st1 st2 : state W),
     e_id entry = Some video_id -> video_id <> "" ->
     fetch_transcript (Some video_id) st = (Ok transcript, st1) ->
     fetch_metadata video_id st1 = (Ok None, st2) ->
     process_entry entry st = (Ok tt, st2) /\ csv st2 = csv st) /\
  (forall (entry : video_info) (st : state W),
     exists st',
       process_entry entry st = (Ok tt, st') /\
       (meta_requests (trace st') <= meta_requests (trace st) + 2)%nat) /\
  (forall (es : list video_info) (st : state W),
     exists st',
       for_each process_entry es st = (Ok tt, st') /\
       (meta_requests (trace st') <= meta_requests (trace st) + 2 * length es)%nat).
Proof.
  split; [exact fetch_metadata_cases|].
  split; [exact process_entry_skips|].
  split; [|exact uploads_loop_total].
  intros entry st. destruct (process_entry_total entry st) as (st' & He & Hm & _).
  exists st'. auto.
Qed.

End ChannelLoop.

(** ** The transcript fetcher and the channel harvest *)

Section ChannelHarvest.

Context {W : Type} `{Services W}.

Import Channel.




End ChannelHarvest.

(** ** The stratified sampler *)

(** Splits a conjunction into its parts, and nothing else. *)
Ltac splits := repeat match goal with |- _ /\ _ => split end.

Ltac finish := splits; try assumption; try reflexivity; try lia; try congruence.

Section SamplerFacts.

Context {W : Type} `{Services W}.

Import Sampler.

Lemma key_eqb_eq (a b : option string) : key_eqb a b = true <-> a = b.
Proof.
  destruct a as [x|], b as [y|]; cbn; try (split; congruence).
  rewrite String.eqb_eq. split; congruence.
Qed.

Lemma dict_mem_false (vid : option string) (c : dict) :
  dict_mem vid c = false -> ~ In vid (map fst c).
Proof.
  induction c as [|[k v] c IH]; cbn; [tauto|].
  intros Hm. apply orb_false_elim in Hm. destruct Hm as [Hk Hc].
  intros [Heq|Hin]; [|exact (IH Hc Hin)].
  cbn in Heq. subst k.
  destruct (key_eqb_eq vid vid) as [_ Hrefl]. rewrite Hrefl in Hk; congruence.
Qed.

Lemma dict_set_fresh (vid : option string) (r : VideoRecord) (c : dict) :
  dict_mem vid c = false -> dict_set vid r c = (c ++ [(vid, r)])%list.
Proof.
  induction c as [|[k v] c IH]; cbn; [reflexivity|].
  intros Hm. apply orb_false_elim in Hm. destruct Hm as [Hk Hc].
  cbn in Hk. rewrite Hk, (IH Hc). reflexivity.
Qed.

Lemma in_tier_true (lo : Z) (hi : bound) (v : Z) :
  in_tier lo hi v = true <->
  lo <= v /\ match hi with Finite m => v < m | Infinity => True end.
Proof.
  unfold in_tier, below. rewrite andb_true_iff, Z.leb_le.
  destruct hi; [rewrite Z.ltb_lt|]; tauto.
Qed.

Lemma choice_eq l (st : state W) :
  choice l st =
  (Ok (fst (random_choice l (world st))),
   mkState (snd (random_choice l (world st))) (trace st) (csv st)).
Proof. unfold choice. destruct (random_choice l (world st)). reflexivity. Qed.

Lemma uniform_eq lo hi (st : state W) :
  uniform lo hi st =
  (Ok (fst (random_uniform lo hi (world st))),
   mkState (snd (random_uniform lo hi (world st))) (trace st) (csv st)).
Proof. unfold uniform. destruct (random_uniform lo hi (world st)). reflexivity. Qed.

Lemma well_collected_add lo hi (c : dict) (e : video_info) (text : string) :
  well_collected lo hi c ->
  dict_mem (e_id e) c = false ->
  in_tier lo hi (py_or0 (e_view_count e)) = true ->
  text <> "" ->
  well_collected lo hi (dict_set (e_id e) (record_of e text) c).
Proof.
  intros [Hnd Hall] Hm Hin Htext. rewrite (dict_set_fresh _ _ _ Hm). split.
  - rewrite map_app. cbn [map fst]. apply NoDup_app; [exact Hnd | | ].
    + constructor; [intros [] | constructor].
    + intros k Hk [<-|[]]. exact (dict_mem_false _ _ Hm Hk).
  - apply Forall_app. split; [exact Hall|].
    constructor; [|constructor]. cbn [fst snd]. split; [reflexivity|].
    apply in_tier_true in Hin. unfold accepted. cbn [record_of transcript views].
    tauto.
Qed.

(** The scan of one answer never raises; it keeps the dictionary well
    formed, only adds to it, does not pass the quota, and leaves the output
    file alone. *)
Lemma scan_entries_inv lo hi needed (es : list video_info) :
  forall (c : dict) (st : state W),
    well_collected lo hi c ->
    exists c' st',
      scan_entries lo hi needed es c st = (Ok c', st') /\
      well_collected lo hi c' /\
      dict_len c <= dict_len c' /\
      (dict_len c < needed -> dict_len c' <= needed) /\
      csv st' = csv st.
Proof.
  induction es as [|e es IH]; intros c st Hc; cbn [scan_entries].
  - exists c, st. unfold ret. finish.
  - destruct (dict_mem (e_id e) c) eqn:Hm; [apply IH; exact Hc|].
    destruct (in_tier lo hi (py_or0 (e_view_count e))) eqn:Hin;
      cbn [negb]; [|apply IH; exact Hc].
    unfold bind at 1. rewrite attempt_eq.
    destruct (fetch_transcript (e_id e) st) as [r st1] eqn:Ef. cbn [fst snd].
    pose proof (fetch_transcript_csv _ _ _ _ Ef) as Hcsv.
    assert (Hskip : exists c' st',
      scan_entries lo hi needed es c st1 = (Ok c', st') /\
      well_collected lo hi c' /\ dict_len c <= dict_len c' /\
      (dict_len c < needed -> dict_len c' <= needed) /\ csv st' = csv st).
    { destruct (IH c st1 Hc) as (c' & st' & H1 & H2 & H3 & H4 & H5).
      exists c', st'. finish. }
    destruct r as [text|err]; [|destruct err; exact Hskip].
    pose proof (fetch_transcript_nonempty _ _ _ _ Ef) as Htext.
    pose proof (well_collected_add lo hi c e text Hc Hm Hin Htext) as Hc'.
    assert (Hlen : dict_len (dict_set (e_id e) (record_of e text) c) = dict_len c + 1).
    { rewrite (dict_set_fresh _ _ _ Hm). unfold dict_len. rewrite length_app. cbn. lia. }
    destruct (needed <=? dict_len (dict_set (e_id e) (record_of e text) c)) eqn:Hq.
    + eexists. exists st1. unfold ret. split; [reflexivity|].
      finish.
    + apply Z.leb_gt in Hq.
      destruct (IH _ st1 Hc') as (c' & st' & H1 & H2 & H3 & H4 & H5).
      exists c', st'. finish.
Qed.

(** Once the quota is reached the remaining candidates are not looked at. *)
Lemma scan_entries_stops lo hi needed (pre rest : list video_info) :
  forall (c c1 : dict) (st st1 : state W),
    dict_len c < needed ->
    scan_entries lo hi needed pre c st = (Ok c1, st1) ->
    needed <= dict_len c1 ->
    scan_entries lo hi needed (pre ++ rest) c st = (Ok c1, st1).
Proof.
  induction pre as [|e pre IH]; intros c c1 st st1 Hlt Hscan Hq.
  - cbn in Hscan. unfold ret in Hscan. injection Hscan as <- <-. lia.
  - cbn [app scan_entries] in *.
    destruct (dict_mem (e_id e) c); [eapply IH; eassumption|].
    destruct (negb (in_tier lo hi (py_or0 (e_view_count e)))); [eapply IH; eassumption|].
    unfold bind at 1. unfold bind at 1 in Hscan. rewrite attempt_eq in *.
    destruct (fetch_transcript (e_id e) st) as [r st0]. cbn [fst snd] in *.
    destruct r as [text|err]; [|destruct err; eapply IH; eassumption].
    destruct (needed <=? dict_len (dict_set (e_id e) (record_of e text) c)) eqn:Hn;
      [exact Hscan|].
    apply Z.leb_gt in Hn. eapply IH; eassumption.
Qed.

Lemma search_loop_unfold fuel lo hi needed c :
  search_loop fuel lo hi needed c =
  if dict_len c <? needed then
    match fuel with
    | O => ret None
    | S fuel' =>
        q <- choice COMMON_QUERIES ;;
        found <- attempt (call_listing ("ytsearch50:" ++ q)) ;;
        match found with
        | Raise (DownloadError msg) =>
            (if is_rate_limited msg then sleep 60 else sleep 10) ;;
            search_loop fuel' lo hi needed c
        | Raise e => raise e
        | Ok info =>
            let es := match entries info with Some l => l | None => [] end in
            c' <- scan_entries lo hi needed es c ;;
            pause <- uniform 1 3 ;;
            sleep pause ;;
            search_loop fuel' lo hi needed c'
        end
    end
  else ret (Some c).
Proof. destruct fuel; reflexivity. Qed.

(** A finished tier search holds exactly the quota. *)
Lemma search_loop_inv lo hi needed (fuel : nat) :
  forall (c c' : dict) (st st' : state W),
    well_collected lo hi c -> dict_len c <= needed ->
    search_loop fuel lo hi needed c st = (Ok (Some c'), st') ->
    well_collected lo hi c' /\ dict_len c' = needed /\ csv st' = csv st.
Proof.
  induction fuel as [|fuel IH]; intros c c' st st' Hc Hle; rewrite search_loop_unfold;
    destruct (dict_len c <? needed) eqn:Hlt.
  - unfold ret. discriminate.
  - apply Z.ltb_ge in Hlt. unfold ret. intros [= <- <-]. finish.
  - apply Z.ltb_lt in Hlt.
    unfold bind at 1. rewrite choice_eq.
    unfold bind at 1. rewrite attempt_eq, call_listing_eq. cbn [fst snd world trace csv].
    set (q := fst (random_choice COMMON_QUERIES (world st))).
    set (w0 := snd (random_choice COMMON_QUERIES (world st))).
    destruct (extract_listing ("ytsearch50:" ++ q) w0) as [r w1]. cbn [fst snd].
    destruct r as [info|err].
    + cbv zeta. unfold bind at 1.
      match goal with
      | |- context [scan_entries lo hi needed ?es c ?s] =>
          destruct (scan_entries_inv lo hi needed es c s Hc)
            as (c1 & st1 & Hs & Hc1 & Hmono & Hcap & Hcsv1); rewrite Hs
      end.
      unfold bind at 1. rewrite uniform_eq.
      unfold bind at 1, sleep at 1.
      intros Hloop. apply IH in Hloop; [|exact Hc1|apply Hcap; exact Hlt].
      destruct Hloop as (H1 & H2 & H3). splits; try assumption.
      rewrite H3. cbn [csv]. exact Hcsv1.
    + destruct err as [ | m | msg | | m ]; try (unfold raise; discriminate).
      unfold bind at 1.
      destruct (is_rate_limited msg); unfold sleep at 1;
        intros Hloop; apply IH in Hloop; try assumption;
        destruct Hloop as (H1 & H2 & H3); splits; try assumption;
        rewrite H3; reflexivity.
  - apply Z.ltb_ge in Hlt. unfold ret. intros [= <- <-]. finish.
Qed.

Lemma well_collected_rows lo hi (c : dict) :
  well_collected lo hi c ->
  NoDup (map video_id (dict_values c)) /\ Forall (accepted lo hi) (dict_values c).
Proof.
  intros [Hnd Hall]. unfold dict_values. split.
  - rewrite map_map. erewrite map_ext_in; [exact Hnd|].
    intros kv Hin. rewrite Forall_forall in Hall. apply (Hall kv Hin).
  - rewrite Forall_map. eapply Forall_impl; [|exact Hall]. cbn. tauto.
Qed.

Lemma search_and_filter_inv fuel lo hi needed (st st' : state W) recs :
  0 <= needed ->
  search_and_filter fuel lo hi needed st = (Ok (Some recs), st') ->
  Z.of_nat (length recs) = needed /\
  NoDup (map video_id recs) /\
  Forall (accepted lo hi) recs /\
  csv st' = csv st.
Proof.
  intros Hn. unfold search_and_filter, bind.
  destruct (search_loop fuel lo hi needed [] st) as [r st1] eqn:El.
  destruct r as [[c|]|e]; unfold ret; try discriminate.
  intros [= <- <-].
  assert (H0 : well_collected lo hi []) by (split; constructor).
  destruct (search_loop_inv lo hi needed fuel [] c st st1 H0 Hn El) as (Hc & Hlen & Hcsv).
  destruct (well_collected_rows lo hi c Hc) as [Hnd Hacc].
  splits; try assumption.
  unfold dict_values. rewrite length_map. exact Hlen.
Qed.

End SamplerFacts.

Section SamplerClaims.

Context {W : Type} `{Services W}.

Import Sampler.

(** C2: for a quota [needed >= 0], a tier search that returns holds exactly
    [needed] records, with distinct identifiers, each with a non-empty
    transcript and a view count [v] with [min_views <= v < max_views]; a
    candidate whose view count is the upper bound of the tier is passed over
    without a look at its transcript; and the scan of an answer ends at the
    candidate that fills the quota: what follows it is not examined. *)
Theorem search_and_filter_fills_quota :
  (forall (fuel : nat) (min_views : Z) (max_views : bound) (needed : Z)
          (st st' : state W) (recs : list VideoRecord),
     0 <= needed ->
     search_and_filter fuel min_views max_views needed st = (Ok (Some recs), st') ->
     Z.of_nat (length recs) = needed /\
     NoDup (map video_id recs) /\
     Forall (fun r => transcript r <> "" /\ min_views <= views r /\
                      below (views r) max_views = true) recs) /\
  (forall (min_views m needed : Z) (e : video_info) (rest : list video_info) (c : dict),
     py_or0 (e_view_count e) = m ->
     in_tier min_views (Finite m) m = false /\
     scan_entries min_views (Finite m) needed (e :: rest) c
       = scan_entries min_views (Finite m) needed rest c) /\
  (forall (min_views : Z) (max_views : bound) (needed : Z)
          (pre rest : list video_info) (c c1 : dict) (st st1 : state W),
     dict_len c < needed ->
     scan_entries min_views max_views needed pre c st = (Ok c1, st1) ->
     needed <= dict_len c1 ->
     scan_entries min_views max_views needed (pre ++ rest) c st = (Ok c1, st1)).
Proof.
  split; [|split].
  - intros fuel lo hi needed st st' recs Hn Hs.
    destruct (search_and_filter_inv fuel lo hi needed st st' recs Hn Hs)
      as (Hlen & Hnd & Hacc & _).
    splits; try assumption.
    eapply Forall_impl; [|exact Hacc].
    intros r (Ht & Hlo & Hhi). splits; try assumption.
    unfold below. destruct hi; [apply Z.ltb_lt; exact Hhi | reflexivity].
  - intros lo m needed e rest c Hv.
    assert (Hout : in_tier lo (Finite m) m = false).
    { unfold in_tier, below. rewrite Z.ltb_irrefl. apply andb_false_r. }
    split; [exact Hout|].
    cbn [scan_entries]. rewrite Hv, Hout. cbn [negb].
    destruct (dict_mem (e_id e) c); reflexivity.
  - intros lo hi needed pre rest c c1 st st1. apply scan_entries_stops.
Qed.

(** C10: a candidate without a view count counts as one with 0 views: a
    tier takes it only if its range holds 0, which among the four tiers is the
    lowest one alone; a tier with [min_views > 0] passes over it without a
    look at its transcript. *)
Theorem missing_view_count_is_zero (e : video_info) :
  e_view_count e = None ->
  py_or0 (e_view_count e) = 0 /\
  (forall (min_views : Z) (max_views : bound),
     in_tier min_views max_views (py_or0 (e_view_count e)) = true ->
     min_views <= 0 /\ below 0 max_views = true) /\
  (forall (min_views : Z) (max_views : bound) (needed : Z)
          (rest : list video_info) (c : dict),
     0 < min_views ->
     @scan_entries W _ min_views max_views needed (e :: rest) c
       = scan_entries min_views max_views needed rest c) /\
  (forall (name : string) (lo : Z) (hi : bound),
     In (name, lo, hi) TIERS ->
     in_tier lo hi (py_or0 (e_view_count e)) = true -> name = "niche").
Proof.
  intros Hnone. rewrite Hnone. cbn [py_or0]. splits.
  - reflexivity.
  - intros lo hi Hin. unfold in_tier in Hin. apply andb_prop in Hin.
    destruct Hin as [Hlo Hhi]. apply Z.leb_le in Hlo. split; assumption.
  - intros lo hi needed rest c Hlo. cbn [scan_entries]. rewrite Hnone. cbn [py_or0].
    assert (Hout : in_tier lo hi 0 = false).
    { unfold in_tier. apply andb_false_intro1. apply Z.leb_gt. exact Hlo. }
    rewrite Hout. cbn [negb]. destruct (dict_mem (e_id e) c); reflexivity.
  - intros name lo hi Hin Ht. cbn in Hin.
    destruct Hin as [Ht1|[Ht1|[Ht1|[Ht1|[]]]]]; injection Ht1 as <- <- <-;
      try reflexivity; cbn in Ht; discriminate.
Qed.

Lemma for_each_writerow (rows : list VideoRecord) (st : state W) :
  for_each writerow rows st = (Ok tt, mkState (world st) (trace st) (csv st ++ rows)).
Proof.
  revert st. induction rows as [|r rows IH]; intros st; cbn [for_each].
  - unfold ret. rewrite app_nil_r. destruct st; reflexivity.
  - unfold bind, writerow. rewrite IH. cbn [world trace csv].
    rewrite <- app_assoc. reflexivity.
Qed.

(** The rows gathered over a list of tiers: one block per tier, in order. *)
Lemma sample_tiers_blocks (fuel : nat) (tiers : list (string * Z * bound)) :
  forall (acc all : list VideoRecord) (st st' : state W),
    sample_tiers fuel tiers acc st = (Ok (Some all), st') ->
    exists blocks,
      all = (acc ++ concat blocks)%list /\
      Forall2 (fun t b => tier_block (snd (fst t)) (snd t) b) tiers blocks.
Proof.
  induction tiers as [|[[name lo] hi] tiers IH]; intros acc all st st'; cbn [sample_tiers].
  - unfold ret. intros [= <- _]. exists []. cbn. rewrite app_nil_r. split; constructor.
  - unfold bind at 1.
    destruct (search_and_filter fuel lo hi TARGET_PER_TIER st) as [r st1] eqn:Es.
    destruct r as [[vids|]|e]; unfold ret; try discriminate.
    intros Hrest. apply IH in Hrest. destruct Hrest as (blocks & Hall & Hblocks).
    assert (Hq : 0 <= TARGET_PER_TIER) by (unfold TARGET_PER_TIER; lia).
    destruct (search_and_filter_inv fuel lo hi TARGET_PER_TIER st st1 vids Hq Es)
      as (Hlen & Hnd & Hacc & _).
    exists (vids :: blocks). split.
    + rewrite Hall. cbn [concat]. rewrite app_assoc. reflexivity.
    + constructor; [|exact Hblocks]. cbn [fst snd]. unfold tier_block. auto.
Qed.

Lemma NoDup_map_pair {A B C} (f : A -> B) (g : A -> C) (l : list A) :
  NoDup (map f l) -> NoDup (map (fun x => (f x, g x)) l).
Proof.
  induction l as [|a l IH]; cbn; intros Hnd; [constructor|].
  inversion Hnd as [|? ? Hnin Hnd']; subst. constructor; [|exact (IH Hnd')].
  intros Hin. apply Hnin. apply in_map_iff in Hin. destruct Hin as (x & Hx & Hxl).
  injection Hx as Hf _. rewrite <- Hf. apply in_map. exact Hxl.
Qed.

Lemma in_block_views lo hi (rows : list VideoRecord) (k : option string * Z) :
  Forall (accepted lo hi) rows ->
  In k (map (fun r => (video_id r, views r)) rows) ->
  lo <= snd k /\ match hi with Finite m => snd k < m | Infinity => True end.
Proof.
  intros Hall Hin. apply in_map_iff in Hin. destruct Hin as (r & <- & Hr).
  rewrite Forall_forall in Hall. destruct (Hall r Hr) as (_ & Hlo & Hhi).
  cbn [snd]. split; assumption.
Qed.

End SamplerClaims.

Section SamplerOutput.

Context {W : Type} `{Services W}.

Import Sampler.

(** C5, as the code has it: every row of the sampler's output file has a
    non-empty transcript; the file is the four tiers' blocks of 50 rows one
    after the other, and within a block no identifier occurs twice.  Tiers are
    sampled one by one with no memory of the others, so an identifier can
    occur in two blocks, but then with view counts in different tiers: the
    pairs (video_id, views) are distinct over the file, and so are the
    identifiers when the rows' view counts are a function of the identifier. *)
Theorem sampler_rows_unique_per_tier (fuel : nat) (st st' : state W) :
  main fuel st = (Ok (Some tt), st') ->
  exists viral popular mid niche,
    csv st' = (viral ++ popular ++ mid ++ niche)%list /\
    tier_block 1000000 Infinity viral /\
    tier_block 100000 (Finite 1000000) popular /\
    tier_block 10000 (Finite 100000) mid /\
    tier_block 0 (Finite 10000) niche /\
    Forall (fun r => transcript r <> "") (csv st') /\
    NoDup (map (fun r => (video_id r, views r)) (csv st')) /\
    (forall V : option string -> Z,
       Forall (fun r => views r = V (video_id r)) (csv st') ->
       NoDup (map video_id (csv st'))).
Proof.
  unfold main. unfold bind at 1.
  destruct (sample_tiers fuel TIERS [] st) as [r st1] eqn:Es.
  destruct r as [[all|]|e]; unfold ret; try discriminate.
  unfold bind at 1, open_csv at 1. unfold bind at 1. rewrite for_each_writerow.
  cbn [world trace csv app]. intros [= <-]. cbn [csv].
  destruct (sample_tiers_blocks fuel TIERS [] all st st1 Es) as (blocks & Hall & Hb).
  unfold TIERS in Hb.
  inversion Hb as [|? viral ? ? Hv Hb1]; subst; clear Hb.
  inversion Hb1 as [|? popular ? ? Hp Hb2]; subst; clear Hb1.
  inversion Hb2 as [|? mid ? ? Hm Hb3]; subst; clear Hb2.
  inversion Hb3 as [|? niche ? ? Hn Hb4]; subst; clear Hb3.
  inversion Hb4; subst; clear Hb4.
  cbn [fst snd] in *. cbn [concat app]. rewrite app_nil_r.
  exists viral, popular, mid, niche.
  destruct Hv as (Hv1 & Hv2 & Hv3). destruct Hp as (Hp1 & Hp2 & Hp3).
  destruct Hm as (Hm1 & Hm2 & Hm3). destruct Hn as (Hn1 & Hn2 & Hn3).
  assert (Hpairs : NoDup (map (fun r => (video_id r, views r))
                              (viral ++ popular ++ mid ++ niche))).
  { rewrite !map_app.
    repeat apply NoDup_app; try (apply NoDup_map_pair; assumption);
      intros k Hk Hk'; repeat (apply in_app_or in Hk'; destruct Hk' as [Hk'|Hk']);
      repeat match goal with
             | Hin : In k (map _ ?rows), Hacc : Forall (accepted _ _) ?rows |- _ =>
                 apply (in_block_views _ _ _ _ Hacc) in Hin
             end; lia. }
  splits; try reflexivity; try exact Hpairs; try (unfold tier_block; auto; fail).
  - repeat (apply Forall_app; split);
      match goal with
      | Hacc : Forall (accepted ?lo ?hi) ?rows |- Forall _ ?rows =>
          eapply Forall_impl; [|exact Hacc]; intros r Hr; apply Hr
      end.
  - intros V HV.
    apply (NoDup_map_inv (fun i => (i, V i))). rewrite map_map.
    erewrite map_ext_in; [exact Hpairs|].
    intros r Hr. rewrite Forall_forall in HV. rewrite (HV r Hr). reflexivity.
Qed.

End SamplerOutput.

(** ** The classifier averager *)

Section Averager.

Import Transformer.

Context `{Classifier}.

Lemma no_token_no_window (transcript : string) :
  encode transcript = [] -> chunk_size <> 0 ->
  transcript_to_id_chunks transcript chunk_size = Ok [].
Proof.
  intros Hempty Hsize. unfold transcript_to_id_chunks, PySeq.range.
  rewrite Hempty. cbn [length Z.of_nat].
  destruct (chunk_size =? 0) eqn:E0; [apply Z.eqb_eq in E0; contradiction|].
  destruct (0 <? chunk_size).
  - rewrite range_up_unfold. reflexivity.
  - funelim (PySeq.range_down 0 0 chunk_size); [discriminate | reflexivity].
Qed.

Lemma score_all_raises (before after : list string) (t : string) (e : exn) :
  (forall b, In b before -> exists s, score_transcript b = Ok s) ->
  score_transcript t = Raise e ->
  score_all (before ++ t :: after) = Raise e.
Proof.
  intros Hb Ht. induction before as [|b before IH]; cbn [app score_all].
  - rewrite Ht. reflexivity.
  - destruct (Hb b (or_introl eq_refl)) as [s Hs]. rewrite Hs.
    rewrite IH; [reflexivity|]. intros b' Hin. apply Hb. right. exact Hin.
Qed.

(** C8: a transcript that yields no window makes the averaging divide by
    the length zero: scoring it raises [ZeroDivisionError], nothing catches
    it, and the loop over the rows stops there without a result.  A
    transcript whose tokenization is empty is such a transcript. *)
Theorem zero_windows_division_by_zero (transcript : string) :
  transcript_to_id_chunks transcript chunk_size = Ok [] ->
  score_transcript transcript = Raise ZeroDivisionError /\
  (forall s, score_transcript transcript <> Ok s) /\
  (forall before after : list string,
     (forall b, In b before -> exists s, score_transcript b = Ok s) ->
     score_all (before ++ transcript :: after) = Raise ZeroDivisionError) /\
  (forall t, encode t = [] -> chunk_size <> 0 ->
             score_transcript t = Raise ZeroDivisionError).
Proof.
  intros Hnone.
  assert (Hz : forall t, transcript_to_id_chunks t chunk_size = Ok [] ->
                         score_transcript t = Raise ZeroDivisionError).
  { intros t Ht. unfold score_transcript. rewrite Ht. reflexivity. }
  split; [exact (Hz _ Hnone)|]. split; [|split].
  - intros s. rewrite (Hz _ Hnone). discriminate.
  - intros before after Hb. apply score_all_raises; [exact Hb | exact (Hz _ Hnone)].
  - intros t Ht Hsize. apply Hz. apply no_token_no_window; assumption.
Qed.

(** With the floats read as rationals, a score that is returned is the
    mean of the windows' POSITIVE probabilities minus the mean of their
    NEGATIVE ones, over at least one window.  What the probabilities are is
    the classifier's concern. *)
Lemma score_is_difference_of_means (transcript : string) (avg_neg avg_pos score : Q) :
  score_transcript transcript = Ok (avg_neg, avg_pos, score) ->
  exists id_chunks,
    transcript_to_id_chunks transcript chunk_size = Ok id_chunks /\
    id_chunks <> [] /\
    avg_neg = (py_sum (map fst (window_probs id_chunks))
               / inject_Z (Z.of_nat (length id_chunks)))%Q /\
    avg_pos = (py_sum (map snd (window_probs id_chunks))
               / inject_Z (Z.of_nat (length id_chunks)))%Q /\
    score = (avg_pos - avg_neg)%Q.
Proof.
  unfold score_transcript.
  destruct (transcript_to_id_chunks transcript chunk_size) as [id_chunks|e]; [|discriminate].
  unfold window_probs. rewrite !length_map.
  destruct id_chunks as [|ids rest]; [discriminate|].
  cbn [py_div length]. intros [= <- <- <-].
  exists (ids :: rest). repeat split. discriminate.
Qed.

End Averager.

(** ** The scorer by language model *)

Section ReplyParser.

Import PyStr OpenAIScorer.

Lemma split_char_length (sep : ascii) (s : string) :
  length (split_char sep s) = S (count_char sep s).
Proof.
  induction s as [|c s IH]; cbn [split_char count_char]; [reflexivity|].
  destruct (Ascii.eqb c sep); cbn [length Nat.add]; [rewrite IH; reflexivity|].
  destruct (split_char sep s); cbn [length] in *; [discriminate | exact IH].
Qed.

Lemma parse_reply_length (resp_text : string) :
  length (parse_reply resp_text) = S (count_char "," resp_text).
Proof. unfold parse_reply. rewrite length_map. apply split_char_length. Qed.



Lemma score_row_four (idx : nat) (output_text : string) (new_data : frame) :
  count_char "," (strip output_text) = 3%nat ->
  score_row idx output_text new_data
    = Ok (row_set idx (map strip (split_char "," (strip output_text))) new_data).
Proof.
  intros H3. unfold score_row, loc_setitem.
  rewrite parse_reply_length, H3. reflexivity.
Qed.



End ReplyParser.

(** ** Concrete runs *)

Section Runs.

Import Sampler.

(** The chunker on five identifiers and windows of two *)
Example chunks_of_hello :
  @Transformer.transcript_to_id_chunks (Mock.classifier 4) "hello" 2
    = Ok [[104; 101]; [108; 108]; [111]].
Proof. reflexivity. Qed.

Lemma transcript_to_id_chunks_windows_run :
  0 < 2 /\
  exists chunks,
    @Transformer.transcript_to_id_chunks (Mock.classifier 4) "hello" 2 = Ok chunks /\
    Z.of_nat (length chunks)
      = Transformer.ceil_div (Z.of_nat (length (@Transformer.encode (Mock.classifier 4) "hello"))) 2 /\
    Forall (fun w => 0 < Z.of_nat (length w) <= 2) chunks /\
    concat chunks = @Transformer.encode (Mock.classifier 4) "hello" /\
    (@Transformer.encode (Mock.classifier 4) "hello" = [] -> chunks = []).
Proof.
  split; [lia|].
  apply (@transcript_to_id_chunks_windows (Mock.classifier 4) "hello" 2). lia.
Defined.

(** The tier of 10 000 to 100 000 views with a quota of two: the first
    answer gives b, the service is rate-limited, the next answer gives e; d
    sits on the upper bound and f comes after the quota is filled. *)
Example mid_tier_trace :
  trace (snd (@search_and_filter _ (Mock.scripted Mock.spoken) 3 10000 (Finite 100000) 2
                (Mock.start Mock.mid_tier_search)))
  = [EvListing "ytsearch50:the"; EvTranscript (Some "b"); EvSleep 1;
     EvListing "ytsearch50:the"; EvSleep 60;
     EvListing "ytsearch50:the"; EvTranscript (Some "e"); EvSleep 1].
Proof. reflexivity. Qed.

Lemma search_and_filter_fills_quota_run :
  exists recs st',
    @search_and_filter _ (Mock.scripted Mock.spoken) 3 10000 (Finite 100000) 2
      (Mock.start Mock.mid_tier_search) = (Ok (Some recs), st') /\
    map video_id recs = [Some "b"; Some "e"] /\
    0 <= 2 /\
    Z.of_nat (length recs) = 2 /\
    NoDup (map video_id recs) /\
    Forall (fun r => transcript r <> "" /\ 10000 <= views r /\
                     below (views r) (Finite 100000) = true) recs.
Proof.
  eexists. eexists. split; [vm_compute; reflexivity|].
  split; [reflexivity|]. split; [lia|].
  eapply (proj1 (@search_and_filter_fills_quota _ (Mock.scripted Mock.spoken))
            3%nat 10000 (Finite 100000) 2 (Mock.start Mock.mid_tier_search)).
  - lia.
  - vm_compute. reflexivity.
Defined.

(** The metadata service rate-limited once: two requests, 60 seconds apart *)
Example metadata_after_one_limit :
  @Channel.fetch_metadata _ (Mock.scripted Mock.spoken) "C" (Mock.start Mock.limited_once)
  = (Ok (Some (Mock.video "C" (Some 30))),
     mkState (Mock.mkWorld [] [])
       [EvMetadata "https://www.youtube.com/watch?v=C"; EvSleep 60;
        EvMetadata "https://www.youtube.com/watch?v=C"] []).
Proof. reflexivity. Qed.

Lemma metadata_fetch_retries_once_run :
  exists st1 st2,
    @fetch_transcript _ (Mock.scripted Mock.spoken) (Some "C") (Mock.start Mock.limited_twice)
      = (Ok "some words", st1) /\
    @Channel.fetch_metadata _ (Mock.scripted Mock.spoken) "C" st1 = (Ok None, st2) /\
    meta_requests (trace st2) = 2%nat /\
    @Channel.process_entry _ (Mock.scripted Mock.spoken) (Mock.video "C" (Some 30))
      (Mock.start Mock.limited_twice) = (Ok tt, st2) /\
    csv st2 = csv (Mock.start Mock.limited_twice).
Proof.
  eexists. eexists. split; [vm_compute; reflexivity|].
  split; [vm_compute; reflexivity|]. split; [reflexivity|].
  eapply (proj1 (proj2 (@metadata_fetch_retries_once _ (Mock.scripted Mock.spoken)))
            (Mock.video "C" (Some 30)) "C" "some words").
  - reflexivity.
  - discriminate.
  - vm_compute. reflexivity.
  - vm_compute. reflexivity.
Defined.


(** C5 as stated fails: the sampler fills the four tiers from four answers
    of the search service, and the video v0, reported with two million views
    in the first answer and without a view count in the last, is written
    twice: as row 1 of the "viral" block and as row 1 of the "niche" block. *)
Lemma sampler_repeats_video_across_tiers :
  exists st',
    @main _ (Mock.scripted Mock.spoken) 1 (Mock.start Mock.drifting_views)
      = (Ok (Some tt), st') /\
    nth_error (map video_id (csv st')) 0 = Some (Some "v0") /\
    nth_error (map video_id (csv st')) 150 = Some (Some "v0") /\
    ~ NoDup (map video_id (csv st')).
Proof.
  eexists. split; [vm_compute; reflexivity|].
  split; [reflexivity|]. split; [reflexivity|].
  intros Hnd.
  pose proof (proj1 (NoDup_nth_error _) Hnd 0%nat 150%nat) as Hsame.
  assert (Heq : 0%nat = 150%nat); [|discriminate Heq].
  apply Hsame; [cbn; lia | reflexivity].
Qed.

Lemma sampler_rows_unique_per_tier_run :
  exists st',
    @main _ (Mock.scripted Mock.spoken) 1 (Mock.start Mock.steady_views)
      = (Ok (Some tt), st') /\
    exists viral popular mid niche,
      csv st' = (viral ++ popular ++ mid ++ niche)%list /\
      tier_block 1000000 Infinity viral /\
      tier_block 100000 (Finite 1000000) popular /\
      tier_block 10000 (Finite 100000) mid /\
      tier_block 0 (Finite 10000) niche /\
      Forall (fun r => transcript r <> "") (csv st') /\
      NoDup (map (fun r => (video_id r, views r)) (csv st')) /\
      (forall V : option string -> Z,
         Forall (fun r => views r = V (video_id r)) (csv st') ->
         NoDup (map video_id (csv st'))).
Proof.
  eexists. split; [vm_compute; reflexivity|].
  eapply (@sampler_rows_unique_per_tier _ (Mock.scripted Mock.spoken) 1%nat
            (Mock.start Mock.steady_views)).
  vm_compute. reflexivity.
Defined.

(** A transcript of blanks has no token: scoring it divides by zero *)
Lemma zero_windows_division_by_zero_run :
  @Transformer.transcript_to_id_chunks (Mock.classifier 512) "   "
     (@Transformer.chunk_size (Mock.classifier 512)) = Ok [] /\
  @Transformer.score_transcript (Mock.classifier 512) "   " = Raise ZeroDivisionError /\
  @Transformer.score_all (Mock.classifier 512) ["hello"; "   "; "world"]
    = Raise ZeroDivisionError.
Proof.
  split; [reflexivity|].
  destruct (@zero_windows_division_by_zero (Mock.classifier 512) "   " eq_refl)
    as (Hscore & _ & Hall & _).
  split; [exact Hscore|].
  apply (Hall ["hello"] ["world"]).
  intros b [<-|[]]. eexists. vm_compute. reflexivity.
Defined.



(** A candidate without a view count, in the world of the mid tier search *)
Lemma missing_view_count_is_zero_run :
  e_view_count (Mock.video "x" None) = None /\
  py_or0 (e_view_count (Mock.video "x" None)) = 0 /\
  @scan_entries _ (Mock.scripted Mock.spoken) 10000 (Finite 100000) 2
     [Mock.video "x" None] [] (Mock.start Mock.mid_tier_search)
    = (Ok [], Mock.start Mock.mid_tier_search).
Proof.
  split; [reflexivity|].
  destruct (@missing_view_count_is_zero _ (Mock.scripted Mock.spoken) (Mock.video "x" None) eq_refl)
    as (Hzero & _ & Hskip & _).
  split; [exact Hzero|].
  rewrite (Hskip 10000 (Finite 100000) 2 [] []); [reflexivity | lia].
Defined.

(** A channel page that is already the uploads page stays as it is *)
Lemma normalize_to_videos_page_run :
  PyStr.endswith "https://www.youtube.com/c/Name/videos" "/videos" = true /\
  Channel.normalize_to_videos_page "https://www.youtube.com/c/Name/videos"
    = "https://www.youtube.com/c/Name/videos".
Proof.
  split; [reflexivity|].
  exact (proj1 (normalize_to_videos_page_spec "https://www.youtube.com/c/Name/videos") eq_refl).
Defined.

End Runs.

(** * Further properties of the scripts *)

(** ** More on the channel harvest *)

Section ChannelMore.

Context {W : Type} `{Services W}.

Import Channel.

Lemma subseq_refl {A} (l : list A) : subseq l l.
Proof. induction l; constructor; assumption. Qed.

Lemma subseq_in {A} (l m : list A) (x : A) : subseq l m -> In x l -> In x m.
Proof.
  induction 1 as [|y l m _ IH|y l m _ IH]; cbn; [tauto | auto |].
  intros [->|Hin]; auto.
Qed.

Lemma subseq_NoDup {A} (l m : list A) : subseq l m -> NoDup m -> NoDup l.
Proof.
  induction 1 as [|y l m Hs IH|y l m Hs IH]; intros Hnd.
  - constructor.
  - inversion Hnd; subst. auto.
  - inversion Hnd as [|? ? Hnin Hnd']; subst. constructor; [|auto].
    intros Hin. apply Hnin. eapply subseq_in; eassumption.
Qed.

(** A transcript that is returned is stripped: it is not empty, it
    neither starts nor ends with a white-space character, and it is the join
    of the segments' texts, which is not all white space, without the white
    space at its two ends. *)
Theorem fetch_transcript_stripped (vid : option string) (st st1 : state W) (text : string) :
  fetch_transcript vid st = (Ok text, st1) ->
  text <> "" /\ PyStr.strip text = text /\
  PyStr.starts_with_space text = false /\
  PyStr.ends_with_space text = false /\
  exists segs pre post,
    fst (get_transcript vid (world st)) = Ok segs /\
    text = PyStr.strip (PyStr.join " " (map seg_text segs)) /\
    PyStr.join " " (map seg_text segs) = (pre ++ text ++ post)%string /\
    PyStr.all_space pre = true /\ PyStr.all_space post = true /\
    PyStr.all_space (PyStr.join " " (map seg_text segs)) = false.
Proof.
  intros Hf. split; [exact (fetch_transcript_nonempty _ _ _ _ Hf)|].
  rewrite fetch_transcript_eq in Hf. cbv zeta in Hf.
  destruct (fst (get_transcript vid (world st))) as [segs|e]; [|discriminate].
  destruct (PyStr.strip (PyStr.join " " (map seg_text segs))) eqn:E; [discriminate|].
  injection Hf as <- _. rewrite <- E.
  split; [apply strip_idem|]. split; [apply strip_ends|]. split; [apply strip_ends|].
  destruct (strip_decomp (PyStr.join " " (map seg_text segs))) as (pre & post & Hd & Hpre & Hpost).
  exists segs, pre, post. split; [reflexivity|]. split; [reflexivity|].
  split; [exact Hd|]. split; [exact Hpre|]. split; [exact Hpost|].
  destruct (PyStr.all_space (PyStr.join " " (map seg_text segs))) eqn:Ea; [|reflexivity].
  apply strip_blank_iff in Ea. rewrite Ea in E. discriminate.
Qed.

(** The loop over the uploads appends rows for some of the entries, in the
    order of the listing; each row carries a non-empty identifier and a
    non-empty transcript. *)
Lemma uploads_loop_rows (es : list video_info) (st : state W) :
  exists st' rows,
    for_each process_entry es st = (Ok tt, st') /\
    csv st' = (csv st ++ rows)%list /\
    subseq (map video_id rows) (map e_id es) /\
    Forall (fun r => transcript r <> "" /\
                     exists v, video_id r = Some v /\ v <> "") rows.
Proof.
  revert st. induction es as [|e es IH]; intros st.
  - exists st, []. cbn. unfold ret. rewrite app_nil_r.
    split; [reflexivity|]. split; [reflexivity|]. split; constructor.
  - destruct (process_entry_total e st) as (st1 & He & _ & Hrow).
    destruct (IH st1) as (st2 & rows & Hes & Hcsv & Hsub & Hall).
    cbn [for_each]. unfold bind at 1. rewrite He.
    destruct Hrow as [Hsame | (v & info & t & Hid & Ht & Hnew)].
    + exists st2, rows. split; [exact Hes|]. split; [congruence|].
      split; [cbn [map]; apply subseq_skip; exact Hsub | exact Hall].
    + assert (Hv : v <> "").
      { intros ->. unfold process_entry in He. rewrite Hid in He.
        cbn in He. unfold ret in He. injection He as <-.
        apply (f_equal (@length _)) in Hnew. rewrite length_app in Hnew.
        cbn in Hnew. lia. }
      exists st2, (row_of v info t :: rows). split; [exact Hes|].
      split; [rewrite Hcsv, Hnew, <- app_assoc; reflexivity|].
      split.
      * cbn [map]. rewrite Hid. change (video_id (row_of v info t)) with (Some v).
        apply subseq_keep. exact Hsub.
      * constructor; [|exact Hall]. split; [exact Ht|]. exists v. split; [reflexivity | exact Hv].
Qed.

(** The output file of a channel harvest that got a listing: its rows
    follow the order of the listing, one row at most per entry, each with an
    identifier and a non-empty transcript; identifiers are not repeated unless
    the listing repeats them.  What the file held before is gone. *)
Theorem channel_rows_follow_listing (url : string) (es : list video_info)
    (info : playlist_info) (st : state W) :
  url <> "" ->
  fst (extract_listing (normalize_to_videos_page url) (world st)) = Ok info ->
  entries info = Some es -> es <> [] ->
  exists st',
    main_on url st = (Ok tt, st') /\
    subseq (map video_id (csv st')) (map e_id es) /\
    (length (csv st') <= length es)%nat /\
    Forall (fun r => transcript r <> "" /\
                     exists v, video_id r = Some v /\ v <> "") (csv st') /\
    (NoDup (map e_id es) -> NoDup (map video_id (csv st'))).
Proof.
  intros Hurl Hl He Hne. unfold main_on.
  destruct url as [|c u]; [contradiction|]. cbn [PyStr.truthy negb].
  cbv zeta. unfold bind at 1. rewrite attempt_eq, call_listing_eq. cbn [fst snd].
  rewrite Hl, He. destruct es as [|e es]; [contradiction|].
  unfold bind at 1, open_csv at 1.
  match goal with |- exists _, _ ?s = _ /\ _ => set (st0 := s) end.
  destruct (uploads_loop_rows (e :: es) st0) as (st' & rows & Hrun & Hcsv & Hsub & Hall).
  change (csv st0) with (@nil VideoRecord) in Hcsv. cbn [app] in Hcsv.
  exists st'. split; [exact Hrun|]. rewrite Hcsv.
  split; [exact Hsub|]. split; [|split; [exact Hall|]].
  - clear - Hsub.
    assert (Hlen : forall (l m : list (option string)), subseq l m -> (length l <= length m)%nat).
    { induction 1; cbn; lia. }
    apply Hlen in Hsub. rewrite !length_map in Hsub. exact Hsub.
  - intros Hnd. eapply subseq_NoDup; eassumption.
Qed.

(** Without a listing there is no harvest: when the listing request fails,
    or answers without entries, [main] returns after that one request and the
    output file is not opened; with no channel URL it raises before any
    request. *)
Theorem channel_without_listing (url : string) (st : state W) :
  (url = "" ->
   main_on url st = (Raise (ValueError "Please set CHANNEL_URL to the target channel."), st)) /\
  (url <> "" ->
   match fst (extract_listing (normalize_to_videos_page url) (world st)) with
   | Raise _ => True
   | Ok info => entries info = None \/ entries info = Some []
   end ->
   main_on url st
   = (Ok tt,
      mkState (snd (extract_listing (normalize_to_videos_page url) (world st)))
              (trace st ++ [EvListing (normalize_to_videos_page url)]) (csv st))).
Proof.
  split.
  - intros ->. reflexivity.
  - intros Hurl Hl. unfold main_on.
    destruct url as [|c u]; [contradiction|]. cbn [PyStr.truthy negb].
    cbv zeta. unfold bind at 1. rewrite attempt_eq, call_listing_eq. cbn [fst snd].
    destruct (fst (extract_listing _ (world st))) as [info|e]; [|reflexivity].
    destruct Hl as [-> | ->]; reflexivity.
Qed.

End ChannelMore.

(** ** More on the stratified sampler *)

Section SamplerMore.

Context {W : Type} `{Services W}.

Import Sampler.

(** The four tiers split the view counts from 0 on: each one lies in one
    tier and no more; a negative count lies in none. *)
Theorem tiers_partition (v : Z) :
  (0 <= v -> length (filter (fun t => in_tier (snd (fst t)) (snd t) v) TIERS) = 1%nat) /\
  (v < 0 -> filter (fun t => in_tier (snd (fst t)) (snd t) v) TIERS = []).
Proof.
  unfold TIERS, in_tier, below. cbn [filter fst snd].
  split; intros Hv;
    destruct (Z.leb_spec 1000000 v), (Z.leb_spec 100000 v), (Z.leb_spec 10000 v),
             (Z.leb_spec 0 v), (Z.ltb_spec v 1000000), (Z.ltb_spec v 100000),
             (Z.ltb_spec v 10000); cbn; try reflexivity; lia.
Qed.

Lemma built_from_more lo hi e es (l : dict) :
  Forall (built_from lo hi es) l -> Forall (built_from lo hi (e :: es)) l.
Proof.
  intros Hl. eapply Forall_impl; [|exact Hl].
  intros kv (e' & t & Hin & Hrest). exists e', t. split; [right; exact Hin | exact Hrest].
Qed.

Lemma asks_for_more e es (l : list event) :
  Forall (asks_for es) l -> Forall (asks_for (e :: es)) l.
Proof.
  intros Hl. eapply Forall_impl; [|exact Hl].
  intros ev (e' & Hin & Hrest). exists e'. split; [right; exact Hin | exact Hrest].
Qed.

(** The scan of an answer only adds to [collected]: what was there stays,
    in place and unchanged; every record added is built from a candidate of the
    answer that lies in the tier; the only requests are for transcripts, at
    most one per candidate and one at least per record added. *)
Theorem scan_entries_only_adds (min_views : Z) (max_views : bound) (needed : Z)
    (es : list video_info) (c : dict) (st : state W) :
  exists added delta st',
    scan_entries min_views max_views needed es c st = (Ok (c ++ added)%list, st') /\
    trace st' = (trace st ++ delta)%list /\
    csv st' = csv st /\
    Forall (built_from min_views max_views es) added /\
    Forall (asks_for es) delta /\
    (length added <= length delta <= length es)%nat.
Proof.
  revert c st. induction es as [|e es IH]; intros c st; cbn [scan_entries].
  - exists [], [], st. unfold ret. rewrite !app_nil_r.
    splits; try reflexivity; try constructor; cbn; lia.
  - assert (Hskip0 : exists added delta st',
        scan_entries min_views max_views needed es c st = (Ok (c ++ added)%list, st') /\
        trace st' = (trace st ++ delta)%list /\ csv st' = csv st /\
        Forall (built_from min_views max_views (e :: es)) added /\
        Forall (asks_for (e :: es)) delta /\
        (length added <= length delta <= length (e :: es))%nat).
    { destruct (IH c st) as (added & delta & st' & Hs & Htr' & Hcsv' & Hadd & Hdel & Hlen).
      exists added, delta, st'.
      splits; try assumption; try (apply built_from_more; assumption);
        try (apply asks_for_more; assumption); cbn [length]; lia. }
    destruct (dict_mem (e_id e) c) eqn:Hm; [exact Hskip0|].
    destruct (in_tier min_views max_views (py_or0 (e_view_count e))) eqn:Hin;
      cbn [negb]; [|exact Hskip0].
    unfold bind at 1. rewrite attempt_eq.
    destruct (fetch_transcript (e_id e) st) as [r st1] eqn:Ef. cbn [fst snd].
    pose proof (fetch_transcript_csv _ _ _ _ Ef) as Hcsv.
    pose proof (fetch_transcript_trace _ _ _ _ Ef) as Htr.
    assert (Hreq : asks_for (e :: es) (EvTranscript (e_id e))).
    { exists e. split; [left; reflexivity | reflexivity]. }
    assert (Hskip1 : exists added delta st',
        scan_entries min_views max_views needed es c st1 = (Ok (c ++ added)%list, st') /\
        trace st' = (trace st ++ delta)%list /\ csv st' = csv st /\
        Forall (built_from min_views max_views (e :: es)) added /\
        Forall (asks_for (e :: es)) delta /\
        (length added <= length delta <= length (e :: es))%nat).
    { destruct (IH c st1) as (added & delta & st' & Hs & Htr' & Hcsv' & Hadd & Hdel & Hlen).
      exists added, (EvTranscript (e_id e) :: delta), st'.
      splits; try assumption.
      - rewrite Htr', Htr, <- app_assoc. reflexivity.
      - congruence.
      - apply built_from_more. exact Hadd.
      - constructor; [exact Hreq | apply asks_for_more; exact Hdel].
      - cbn [length]. lia.
      - cbn [length]. lia. }
    destruct r as [text|err]; [|destruct err; exact Hskip1].
    pose proof (fetch_transcript_nonempty _ _ _ _ Ef) as Htext.
    rewrite (dict_set_fresh _ _ _ Hm).
    assert (Hnew : built_from min_views max_views (e :: es) (e_id e, record_of e text)).
    { exists e, text. split; [left; reflexivity|]. auto. }
    destruct (needed <=? dict_len (c ++ [(e_id e, record_of e text)])%list).
    + exists [(e_id e, record_of e text)], [EvTranscript (e_id e)], st1. unfold ret.
      splits; try assumption; try reflexivity;
        try (constructor; [assumption | constructor]); cbn [length]; lia.
    + destruct (IH (c ++ [(e_id e, record_of e text)])%list st1)
        as (added & delta & st' & Hs & Htr' & Hcsv' & Hadd & Hdel & Hlen).
      exists ((e_id e, record_of e text) :: added), (EvTranscript (e_id e) :: delta), st'.
      splits.
      * rewrite Hs, <- app_assoc. reflexivity.
      * rewrite Htr', Htr, <- app_assoc. reflexivity.
      * congruence.
      * constructor; [exact Hnew | apply built_from_more; exact Hadd].
      * constructor; [exact Hreq | apply asks_for_more; exact Hdel].
      * cbn [length]. lia.
      * cbn [length]. lia.
Qed.

(** A quota of zero or less is filled at once: no request, no sleep. *)
Theorem search_and_filter_no_quota (fuel : nat) (min_views : Z) (max_views : bound)
    (needed : Z) (st : state W) :
  needed <= 0 ->
  search_and_filter fuel min_views max_views needed st = (Ok (Some []), st).
Proof.
  intros Hn. unfold search_and_filter, bind. rewrite search_loop_unfold.
  assert (Hq : (dict_len [] <? needed) = false) by (apply Z.ltb_ge; cbn; lia).
  rewrite Hq. reflexivity.
Qed.

Lemma search_loop_csv lo hi needed (fuel : nat) :
  forall (c : dict) (st st' : state W) r,
    search_loop fuel lo hi needed c st = (r, st') -> csv st' = csv st.
Proof.
  induction fuel as [|fuel IH]; intros c st st' r; rewrite search_loop_unfold;
    destruct (dict_len c <? needed); unfold ret; try (intros [= _ <-]; reflexivity).
  unfold bind at 1. rewrite choice_eq.
  unfold bind at 1. rewrite attempt_eq, call_listing_eq. cbn [fst snd world trace csv].
  destruct (extract_listing _ _) as [found w1]. cbn [fst snd].
  destruct found as [info|err].
  - cbv zeta. unfold bind at 1.
    match goal with
    | |- context [scan_entries lo hi needed ?es c ?s] =>
        destruct (scan_entries_only_adds lo hi needed es c s)
          as (added & delta & st1 & Hs & _ & Hcsv1 & _); rewrite Hs
    end.
    unfold bind at 1. rewrite uniform_eq. unfold bind at 1, sleep at 1.
    intros Hloop. apply IH in Hloop. rewrite Hloop. cbn [csv]. exact Hcsv1.
  - destruct err as [ | m | msg | | m ]; try (unfold raise; intros [= _ <-]; reflexivity).
    unfold bind at 1. destruct (is_rate_limited msg); unfold sleep at 1;
      intros Hloop; apply IH in Hloop; rewrite Hloop; reflexivity.
Qed.

Lemma sample_tiers_csv (fuel : nat) (tiers : list (string * Z * bound)) :
  forall (acc : list VideoRecord) (st st' : state W) r,
    sample_tiers fuel tiers acc st = (r, st') -> csv st' = csv st.
Proof.
  induction tiers as [|[[name lo] hi] tiers IH]; intros acc st st' r; cbn [sample_tiers].
  - unfold ret. intros [= _ <-]. reflexivity.
  - unfold bind at 1, search_and_filter, bind.
    destruct (search_loop fuel lo hi TARGET_PER_TIER [] st) as [found st1] eqn:El.
    apply search_loop_csv in El.
    destruct found as [[c|]|e]; unfold ret.
    + intros Hrest. apply IH in Hrest. congruence.
    + intros [= _ <-]. exact El.
    + intros [= _ <-]. exact El.
Qed.

(** The output file is opened only when the four tiers are filled: a run
    of [main] that ends otherwise, by an exception of the search service or
    still searching, leaves the file as it was. *)
Theorem main_writes_after_sampling (fuel : nat) (st st' : state W) (r : res (option unit)) :
  main fuel st = (r, st') -> r <> Ok (Some tt) -> csv st' = csv st.
Proof.
  unfold main. unfold bind at 1.
  destruct (sample_tiers fuel TIERS [] st) as [sampled st1] eqn:Es.
  apply sample_tiers_csv in Es.
  destruct sampled as [[all|]|e]; unfold ret.
  - unfold bind at 1, open_csv at 1. unfold bind at 1. rewrite for_each_writerow.
    intros [= <- _] Hr. contradiction.
  - intros [= _ <-] _. exact Es.
  - intros [= _ <-] _. exact Es.
Qed.

Lemma scan_entries_empty_tier lo hi needed (es : list video_info) (c : dict) (st : state W) :
  (forall v, in_tier lo hi v = false) ->
  scan_entries lo hi needed es c st = (Ok c, st).
Proof.
  intros Hempty. induction es as [|e es IH]; cbn [scan_entries]; [reflexivity|].
  rewrite Hempty. cbn [negb]. destruct (dict_mem (e_id e) c); exact IH.
Qed.

Lemma search_loop_empty_tier lo hi needed (fuel : nat) :
  (forall v, in_tier lo hi v = false) ->
  forall (c c' : dict) (st : state W),
    dict_len c < needed ->
    fst (search_loop fuel lo hi needed c st) <> Ok (Some c').
Proof.
  intros Hempty. induction fuel as [|fuel IH]; intros c c' st Hlt;
    rewrite search_loop_unfold;
    (assert (Hq : (dict_len c <? needed) = true) by (apply Z.ltb_lt; exact Hlt));
    rewrite Hq.
  - unfold ret. cbn. discriminate.
  - unfold bind at 1. rewrite choice_eq.
    unfold bind at 1. rewrite attempt_eq, call_listing_eq. cbn [fst snd world trace csv].
    destruct (extract_listing _ _) as [found w1]. cbn [fst snd].
    destruct found as [info|err].
    + cbv zeta. unfold bind at 1. rewrite scan_entries_empty_tier by exact Hempty.
      unfold bind at 1. rewrite uniform_eq. unfold bind at 1, sleep at 1.
      apply IH. exact Hlt.
    + destruct err as [ | m | msg | | m ]; try (unfold raise; cbn; discriminate).
      unfold bind at 1. destruct (is_rate_limited msg); unfold sleep at 1;
        apply IH; exact Hlt.
Qed.

(** A tier whose upper bound is not above its lower bound holds no view
    count: its candidates are passed over without a request, and with a quota
    to fill the search never returns, however long it runs. *)
Theorem empty_tier_never_fills (min_views m needed : Z) (fuel : nat) (st : state W)
    (recs : list VideoRecord) :
  m <= min_views -> 0 < needed ->
  fst (search_and_filter fuel min_views (Finite m) needed st) <> Ok (Some recs) /\
  (forall (es : list video_info) (c : dict) (st0 : state W),
     scan_entries min_views (Finite m) needed es c st0 = (Ok c, st0)).
Proof.
  intros Hm Hn.
  assert (Hempty : forall v, in_tier min_views (Finite m) v = false).
  { intros v. unfold in_tier, below.
    destruct (Z.leb_spec min_views v), (Z.ltb_spec v m); try reflexivity. lia. }
  split.
  - unfold search_and_filter, bind.
    pose proof (search_loop_empty_tier min_views (Finite m) needed fuel Hempty [] ) as Hl.
    destruct (search_loop fuel min_views (Finite m) needed [] st) as [found st1] eqn:El.
    destruct found as [[c|]|e]; unfold ret; cbn; try discriminate.
    exfalso. apply (Hl c st); [cbn; lia|]. rewrite El. reflexivity.
  - intros es c st0. apply scan_entries_empty_tier. exact Hempty.
Qed.

End SamplerMore.

(** ** More on the chunker and the averager *)

Section ChunkerMore.

Import Transformer.

Lemma range_down_step (i stop step : Z) :
  PySeq.range_down i stop step =
  if (stop <? i) && (step <? 0) then i :: PySeq.range_down (i + step) stop step else [].
Proof.
  funelim (PySeq.range_down i stop step).
  - rewrite e. reflexivity.
  - rewrite e. reflexivity.
Qed.

(** Every window before the last one is full. *)
Lemma windows_full {A} (l : list A) (c : Z) (n : nat) :
  0 < c ->
  forall i, 0 <= i -> (Z.to_nat (Z.of_nat (length l) - i) <= n)%nat ->
  forall init last,
    map (fun j => PySeq.slice l j (j + c)) (PySeq.range_up i (Z.of_nat (length l)) c)
      = (init ++ [last])%list ->
    Forall (fun w => Z.of_nat (length w) = c) init.
Proof.
  intros Hc. induction n as [|n IH]; intros i Hi Hn init fin Hw;
    rewrite range_up_unfold in Hw;
    destruct (i <? Z.of_nat (length l)) eqn:E; cbn [andb] in Hw;
    try (destruct init; discriminate Hw).
  - apply Z.ltb_lt in E. lia.
  - apply Z.ltb_lt in E.
    assert (Hstep : (0 <? c) = true) by (apply Z.ltb_lt; exact Hc).
    rewrite Hstep in Hw. cbn [map] in Hw.
    destruct init as [|w init]; [constructor|].
    cbn [app] in Hw. injection Hw as Hw0 Hrest.
    constructor.
    + subst w. rewrite slice_window by lia.
      rewrite length_firstn, length_skipn.
      rewrite range_up_unfold in Hrest.
      destruct (i + c <? Z.of_nat (length l)) eqn:E2;
        [|destruct init; discriminate Hrest].
      apply Z.ltb_lt in E2. lia.
    + apply (IH (i + c) ltac:(lia) ltac:(lia) init fin Hrest).
Qed.

Context `{Classifier}.

Lemma chunks_by_range (text : string) (c : Z) :
  0 < c ->
  transcript_to_id_chunks text c
  = Ok (map (fun j => PySeq.slice (encode text) j (j + c))
            (PySeq.range_up 0 (Z.of_nat (length (encode text))) c)).
Proof.
  intros Hc. unfold transcript_to_id_chunks, PySeq.range.
  destruct (c =? 0) eqn:E0; [apply Z.eqb_eq in E0; lia|].
  assert (Hstep : (0 <? c) = true) by (apply Z.ltb_lt; exact Hc).
  rewrite Hstep. reflexivity.
Qed.

(** Only the final window may be shorter than the chunk size. *)
Theorem only_last_window_short (text : string) (c : Z)
    (init : list (list Z)) (last : list Z) :
  0 < c ->
  transcript_to_id_chunks text c = Ok (init ++ [last])%list ->
  Forall (fun w => Z.of_nat (length w) = c) init /\
  0 < Z.of_nat (length last) <= c /\
  Z.of_nat (length (encode text)) = c * Z.of_nat (length init) + Z.of_nat (length last).
Proof.
  intros Hc. rewrite chunks_by_range by exact Hc. intros [= Hw].
  pose proof (windows_full (encode text) c (length (encode text)) Hc 0
                ltac:(lia) ltac:(lia) init last Hw) as Hfull.
  destruct (windows_from (encode text) c (length (encode text)) Hc 0 ltac:(lia) ltac:(lia))
    as (Hcat & _ & Hall).
  cbv zeta in Hcat, Hall. rewrite Hw in Hcat, Hall.
  apply Forall_app in Hall. destruct Hall as [_ Hlast].
  inversion Hlast as [|? ? Hl _]; subst.
  split; [exact Hfull|]. split; [exact Hl|].
  cbn [skipn Z.to_nat] in Hcat. change (Z.to_nat 0) with 0%nat in Hcat. cbn [skipn] in Hcat.
  rewrite <- Hcat at 1. rewrite concat_app, length_app. cbn [concat]. rewrite app_nil_r.
  assert (Hsum : forall ws : list (list Z),
            Forall (fun w => Z.of_nat (length w) = c) ws ->
            Z.of_nat (length (concat ws)) = c * Z.of_nat (length ws)).
  { induction 1 as [|w ws Hw' _ IHws]; cbn [concat length]; [lia|].
    rewrite length_app. lia. }
  rewrite Nat2Z.inj_add, (Hsum init Hfull). reflexivity.
Qed.

(** What the classifier is run on: each window between the two boundary
    markers, never longer than the model allows. *)
Theorem model_inputs_fit (text : string) (id_chunks : list (list Z)) :
  2 < model_max_length ->
  transcript_to_id_chunks text chunk_size = Ok id_chunks ->
  window_probs id_chunks = map predict (model_inputs id_chunks) /\
  Forall (fun input =>
            3 <= Z.of_nat (length input) <= model_max_length /\
            hd_error input = Some cls_token_id /\
            List.last input cls_token_id = sep_token_id)
         (model_inputs id_chunks).
Proof.
  intros Hmax. assert (Hc : 0 < chunk_size) by (unfold chunk_size; lia).
  rewrite chunks_by_range by exact Hc. intros Hchunks.
  split; [unfold window_probs, model_inputs; rewrite map_map; reflexivity|].
  injection Hchunks as <-.
  destruct (windows_from (encode text) chunk_size (length (encode text)) Hc 0
              ltac:(lia) ltac:(lia)) as (_ & _ & Hall).
  cbv zeta in Hall. unfold model_inputs. rewrite Forall_map.
  eapply Forall_impl; [|exact Hall].
  intros w Hw. cbn beta. split; [|split].
  - cbn [app length]. rewrite length_app. cbn [length]. unfold chunk_size in Hw. lia.
  - reflexivity.
  - exact (last_last (cls_token_id :: w) sep_token_id cls_token_id).
Qed.

(** A model that leaves no room for a token: with a maximal length of 2
    the chunker is asked for steps of zero and raises [ValueError]; below 2 it
    yields no window and the average divides by zero.  No transcript is
    scored. *)
Theorem no_room_for_tokens (text : string) :
  (model_max_length = 2 ->
   score_transcript text = Raise (ValueError "range() arg 3 must not be zero")) /\
  (model_max_length < 2 ->
   transcript_to_id_chunks text chunk_size = Ok [] /\
   score_transcript text = Raise ZeroDivisionError).
Proof.
  split.
  - intros Hm. unfold score_transcript, transcript_to_id_chunks, PySeq.range, chunk_size.
    rewrite Hm. reflexivity.
  - intros Hm.
    assert (Hnone : transcript_to_id_chunks text chunk_size = Ok []).
    { unfold transcript_to_id_chunks, PySeq.range.
      assert (Hc : chunk_size < 0) by (unfold chunk_size; lia).
      destruct (chunk_size =? 0) eqn:E0; [apply Z.eqb_eq in E0; lia|].
      destruct (0 <? chunk_size) eqn:E1; [apply Z.ltb_lt in E1; lia|].
      rewrite range_down_step.
      destruct (Z.of_nat (length (encode text)) <? 0) eqn:E2;
        [apply Z.ltb_lt in E2; lia | reflexivity]. }
    split; [exact Hnone|]. unfold score_transcript. rewrite Hnone. reflexivity.
Qed.

Lemma score_transcript_ok_iff (text : string) :
  0 < chunk_size ->
  (encode text <> [] -> exists s, score_transcript text = Ok s) /\
  (encode text = [] -> score_transcript text = Raise ZeroDivisionError).
Proof.
  intros Hc. split.
  - intros Hne. unfold score_transcript. rewrite chunks_by_range by exact Hc.
    destruct (windows_from (encode text) chunk_size (length (encode text)) Hc 0
                ltac:(lia) ltac:(lia)) as (Hcat & _ & _).
    cbv zeta in Hcat.
    destruct (map _ (PySeq.range_up 0 _ chunk_size)) as [|w ws] eqn:Ew.
    + cbn in Hcat. symmetry in Hcat. contradiction.
    + unfold window_probs. rewrite !length_map. cbn [length py_div]. eexists. reflexivity.
  - intros Hempty. unfold score_transcript.
    rewrite no_token_no_window; [reflexivity | exact Hempty | lia].
Qed.

(** With room for tokens, the scores of all the rows are obtained when
    every transcript has a token, one score per row; otherwise the run ends
    with a division by zero, at the first transcript without a token. *)
Theorem score_all_needs_tokens (transcripts : list string) :
  0 < chunk_size ->
  (Forall (fun t => encode t <> []) transcripts ->
   exists scores, score_all transcripts = Ok scores /\
                  length scores = length transcripts) /\
  (~ Forall (fun t => encode t <> []) transcripts ->
   score_all transcripts = Raise ZeroDivisionError).
Proof.
  intros Hc. induction transcripts as [|t ts [IHok IHbad]].
  - split; [intros _; exists []; split; reflexivity|].
    intros Hn. exfalso. apply Hn. constructor.
  - destruct (score_transcript_ok_iff t Hc) as [Hok Hzero]. split.
    + intros Hall. inversion Hall as [|? ? Ht Hts]; subst.
      destruct (Hok Ht) as [s Hs]. destruct (IHok Hts) as (ss & Hss & Hlen).
      exists (s :: ss). cbn [score_all]. rewrite Hs, Hss. cbn [length].
      split; [reflexivity | congruence].
    + intros Hn. cbn [score_all].
      destruct (encode t) as [|x xs] eqn:Et.
      * rewrite (Hzero eq_refl). reflexivity.
      * destruct (Hok ltac:(discriminate)) as [s Hs]. rewrite Hs.
        rewrite IHbad; [reflexivity|].
        intros Hts. apply Hn. constructor; [rewrite Et; discriminate | exact Hts].
Qed.

End ChunkerMore.

(** ** More on the reply parser *)

Section ReplyMore.

Import PyStr OpenAIScorer.

Lemma split_char_whole (sep : ascii) (f : string) :
  count_char sep f = 0%nat -> split_char sep f = [f].
Proof.
  induction f as [|c f IH]; cbn [count_char split_char]; [reflexivity|].
  destruct (Ascii.eqb c sep); [discriminate|]. cbn [Nat.add].
  intros Hf. rewrite (IH Hf). reflexivity.
Qed.

Lemma split_char_app (sep : ascii) (f s : string) :
  count_char sep f = 0%nat ->
  split_char sep (f ++ String sep s) = f :: split_char sep s.
Proof.
  induction f as [|c f IH]; cbn [count_char append split_char].
  - rewrite Ascii.eqb_refl. reflexivity.
  - destruct (Ascii.eqb c sep); [discriminate|]. cbn [Nat.add].
    intros Hf. rewrite (IH Hf). reflexivity.
Qed.

Lemma split_char_fields (sep : ascii) (s : string) :
  Forall (fun f => count_char sep f = 0%nat) (split_char sep s).
Proof.
  induction s as [|c s IH]; cbn [split_char].
  - constructor; [reflexivity | constructor].
  - destruct (Ascii.eqb c sep) eqn:E.
    + constructor; [reflexivity | exact IH].
    + destruct (split_char sep s) as [|f fs].
      * constructor; [cbn [count_char]; rewrite E; reflexivity | constructor].
      * inversion IH as [|? ? Hf Hfs]; subst.
        constructor; [cbn [count_char]; rewrite E; exact Hf | exact Hfs].
Qed.

(** The pieces of a list of fields joined by a comma and a space *)
Lemma split_join (fields : list string) :
  Forall (fun f => count_char "," f = 0%nat) fields ->
  forall (f0 pre : string),
    count_char "," pre = 0%nat -> count_char "," f0 = 0%nat ->
    split_char "," (pre ++ join ", " (f0 :: fields))
    = (pre ++ f0)%string :: map (fun f => String " " f) fields.
Proof.
  induction 1 as [|g fields Hg _ IH]; intros f0 pre Hpre Hf0.
  - cbn [join map]. apply split_char_whole. rewrite count_char_app. lia.
  - change (join ", " (f0 :: g :: fields))
      with (f0 ++ String "," (String " " (join ", " (g :: fields))))%string.
    rewrite <- append_assoc.
    rewrite split_char_app by (rewrite count_char_app; lia).
    change (String " " (join ", " (g :: fields)))
      with (String " " "" ++ join ", " (g :: fields))%string.
    rewrite (IH g (String " " "") eq_refl Hg). reflexivity.
Qed.

(** A reply written as the prompt asks, the fields separated by a comma
    and a space, is read back field by field. *)
Theorem parse_reply_of_joined (fields : list string) :
  fields <> [] ->
  Forall (fun f => count_char "," f = 0%nat /\ strip f = f) fields ->
  parse_reply (join ", " fields) = fields.
Proof.
  intros Hne Hall. destruct fields as [|f0 fields]; [contradiction|].
  inversion Hall as [|? ? [Hc0 Hs0] Hrest]; subst.
  unfold parse_reply.
  change (join ", " (f0 :: fields)) with ("" ++ join ", " (f0 :: fields))%string.
  rewrite (split_join fields); [| |reflexivity|exact Hc0].
  - cbn [map append]. rewrite Hs0. f_equal.
    rewrite map_map. clear - Hrest.
    induction Hrest as [|g gs [_ Hg] _ IH]; cbn [map]; [reflexivity|].
    rewrite strip_leading_space by reflexivity. rewrite Hg, IH. reflexivity.
  - eapply Forall_impl; [|exact Hrest]. cbn beta. tauto.
Qed.

(** Whatever the reply, the scores are clean: there is one piece at
    least, and no piece holds a comma or starts or ends with a white-space
    character. *)
Theorem parse_reply_fields_clean (resp_text : string) :
  parse_reply resp_text <> [] /\
  Forall (fun f => count_char "," f = 0%nat /\ strip f = f /\
                   starts_with_space f = false /\ ends_with_space f = false)
         (parse_reply resp_text).
Proof.
  split.
  - intros Hnil. apply (f_equal (@length _)) in Hnil.
    rewrite parse_reply_length in Hnil. discriminate.
  - unfold parse_reply. rewrite Forall_map.
    eapply Forall_impl; [|apply (split_char_fields "," resp_text)].
    intros f Hf. cbn beta in Hf |- *.
    split; [|split; [apply strip_idem | apply strip_ends]].
    pose proof (count_char_strip "," f) as Hle. rewrite Hf in Hle.
    apply Nat.le_0_r. exact Hle.
Qed.

(** Taking a character out of a text leaves none of it, and a text
    without it unchanged; what is sent to the model after the prompt holds no
    double quote. *)
Theorem remove_char_removes (c : ascii) (s : string) :
  count_char c (remove_char c s) = 0%nat /\
  (count_char c s = 0%nat -> remove_char c s = s) /\
  (forall d, Ascii.eqb d c = false -> count_char d (remove_char c s) = count_char d s).
Proof.
  induction s as [|d s (IH1 & IH2 & IH3)]; cbn [remove_char count_char].
  - repeat split.
  - destruct (Ascii.eqb d c) eqn:E; cbn [count_char].
    + split; [exact IH1|]. split; [discriminate|].
      intros d' Hd'. apply Ascii.eqb_eq in E. subst d.
      rewrite Ascii.eqb_sym, Hd'. cbn [Nat.add]. apply IH3. exact Hd'.
    + rewrite E. split; [exact IH1|]. split.
      * cbn [Nat.add]. intros Hs. rewrite (IH2 Hs). reflexivity.
      * intros d' Hd'. rewrite (IH3 d' Hd'). reflexivity.
Qed.

End ReplyMore.

(** ** The test for a rate limit *)

Section RateLimitTest.

Import PyStr.

Lemma prefix_app (p s : string) : String.prefix p (p ++ s) = true.
Proof.
  induction p as [|c p IH]; cbn [append]; [destruct s; reflexivity|].
  cbn [String.prefix]. destruct (ascii_dec c c) as [_|Hne]; [exact IH | contradiction].
Qed.

Lemma contains_app (sub a b : string) : contains sub (a ++ sub ++ b) = true.
Proof.
  induction a as [|c a IH]; cbn [append].
  - destruct (sub ++ b)%string eqn:E; cbn [contains]; rewrite <- E, prefix_app; reflexivity.
  - cbn [contains]. rewrite IH. destruct (String.prefix sub _); reflexivity.
Qed.

Lemma lower_app (a b : string) : lower (a ++ b) = (lower a ++ lower b)%string.
Proof. induction a as [|c a IH]; cbn [append lower]; [reflexivity | rewrite IH; reflexivity]. Qed.

(** The test both scripts apply to the text of a [DownloadError] finds
    "rate-limited" anywhere in the text and in any mix of upper and lower
    case. *)
Theorem rate_limit_test_any_case (before word after : string) :
  lower word = "rate-limited" ->
  is_rate_limited (before ++ word ++ after) = true.
Proof.
  intros Hw. unfold is_rate_limited. rewrite !lower_app, Hw. apply contains_app.
Qed.

End RateLimitTest.

(** ** Pauses of the channel harvest *)

Section ChannelPauses.

Context {W : Type} `{Services W}.

Import Channel.

(** An iteration over an entry with an identifier starts with the request
    for its transcript and ends with a sleep, so that the requests for two
    videos are never back to back; an entry without identifier costs
    nothing. *)
Theorem process_entry_ends_with_pause (entry : video_info) (st : state W) :
  exists st' delta,
    process_entry entry st = (Ok tt, st') /\
    trace st' = (trace st ++ delta)%list /\
    match e_id entry with
    | None | Some EmptyString => delta = [] /\ st' = st
    | Some v =>
        exists middle pause,
          delta = (EvTranscript (Some v) :: middle ++ [EvSleep pause])%list
    end.
Proof.
  unfold process_entry.
  destruct (e_id entry) as [v|];
    [|exists st, []; unfold ret; rewrite app_nil_r; auto].
  destruct v as [|c v]; cbn [PyStr.truthy negb];
    [exists st, []; unfold ret; rewrite app_nil_r; auto|].
  unfold bind at 1. rewrite attempt_eq.
  destruct (fetch_transcript (Some (String c v)) st) as [r st1] eqn:Ef. cbn [fst snd].
  pose proof (fetch_transcript_trace _ _ _ _ Ef) as Htr.
  destruct r as [transcript|e].
  - destruct (fetch_metadata_cases (String c v) st1)
      as (found & delta & st2 & Hf & Htr2 & _ & _ & Hcase).
    unfold bind at 1. rewrite Hf. destruct found as [info|].
    + unfold bind, writerow. rewrite throttle_eq. eexists. eexists.
      split; [reflexivity|]. cbn [trace world]. split.
      * rewrite Htr2, Htr, <- !app_assoc. reflexivity.
      * eexists. eexists. cbn [app]. reflexivity.
    + exists st2. unfold ret.
      assert (Hend : exists front pause, delta = (front ++ [EvSleep pause])%list).
      { cbv zeta in Hcase.
        destruct (fst (extract_video (watch_url (String c v)) (world st1))) as [i|err].
        - destruct Hcase as [Hc _]. discriminate Hc.
        - destruct err as [ | m | msg | | m ];
            try (destruct Hcase as (_ & pause & ->);
                 exists [EvMetadata (watch_url (String c v))], pause; reflexivity).
          destruct (is_rate_limited msg).
          + destruct Hcase as (rest & -> & Hretry).
            destruct (fst (extract_video _ _)) as [i2|e2].
            * destruct Hretry as [Hc _]. discriminate Hc.
            * destruct Hretry as (_ & pause & ->).
              exists [EvMetadata (watch_url (String c v)); EvSleep 60;
                      EvMetadata (watch_url (String c v))], pause. reflexivity.
          + destruct Hcase as (_ & pause & ->).
            exists [EvMetadata (watch_url (String c v))], pause. reflexivity. }
      destruct Hend as (front & pause & ->).
      exists (EvTranscript (Some (String c v)) :: front ++ [EvSleep pause])%list.
      split; [reflexivity|]. split.
      * rewrite Htr2, Htr, <- !app_assoc. reflexivity.
      * exists front, pause. reflexivity.
  - assert (Ht : exists st' pause, throttle st1 = (Ok tt, st') /\
              trace st' = (trace st1 ++ [EvSleep pause])%list).
    { rewrite throttle_eq. eexists. eexists. split; reflexivity. }
    destruct Ht as (st' & pause & Ht & Htr').
    exists st', [EvTranscript (Some (String c v)); EvSleep pause].
    split; [destruct e; exact Ht|]. split.
    + rewrite Htr', Htr, <- app_assoc. reflexivity.
    + exists [], pause. reflexivity.
Qed.

End ChannelPauses.

(** ** The rows of scores *)

Section ScoreRows.

Import PyStr OpenAIScorer.

Lemma row_set_fresh (idx : nat) (cells : list string) (f : frame) :
  ~ In idx (map fst f) -> row_set idx cells f = (f ++ [(idx, cells)])%list.
Proof.
  induction f as [|[i c] f IH]; cbn [row_set map fst In app]; [reflexivity|].
  intros Hnin. destruct (Nat.eqb i idx) eqn:E.
  - apply Nat.eqb_eq in E. exfalso. apply Hnin. left. exact E.
  - rewrite IH; [reflexivity|]. intros Hin. apply Hnin. right. exact Hin.
Qed.

(** When every reply has four fields and the rows of the input have
    distinct labels, the frame of scores gets one row per input row, in the
    order of the input, under the same label and holding the stripped pieces
    of the reply to that row's prompt. *)
Theorem score_rows_in_order (complete : string -> string) (rows : list (nat * string))
    (new_data : frame) :
  (forall prompt, count_char "," (strip (complete prompt)) = 3%nat) ->
  NoDup (map fst new_data ++ map fst rows) ->
  score_rows complete rows new_data
  = Ok (new_data ++
        map (fun row : nat * string =>
               (fst row,
                parse_reply (strip (complete (prompt_template
                                                ++ remove_char dquote (snd row))%string))))
            rows)%list.
Proof.
  intros H3. revert new_data. induction rows as [|[idx t] rows IH]; intros new_data Hnd.
  - cbn [score_rows map]. rewrite app_nil_r. reflexivity.
  - cbn [score_rows map fst snd]. rewrite score_row_four by apply H3.
    assert (Hfresh : ~ In idx (map fst new_data)).
    { cbn [map fst] in Hnd. apply NoDup_remove_2 in Hnd.
      intros Hin. apply Hnd. apply in_or_app. left. exact Hin. }
    rewrite (row_set_fresh _ _ _ Hfresh).
    rewrite IH.
    + rewrite <- app_assoc. reflexivity.
    + rewrite map_app. cbn [map fst]. rewrite <- app_assoc. exact Hnd.
Qed.

End ScoreRows.

(** ** More concrete runs *)

Section MoreRuns.

Import Sampler.

(** White space of one, two and three bytes *)
Example white_space_texts :
  PyStr.all_space (Mock.nbsp ++ " " ++ Mock.emsp) = true /\
  PyStr.all_space (Mock.nbsp ++ "a") = false /\
  PyStr.strip (Mock.emsp ++ " a b" ++ Mock.nbsp) = "a b" /\
  PyStr.strip (Mock.nbsp ++ Mock.emsp) = "".
Proof. repeat split; reflexivity. Qed.

(** Captions of no-break spaces and a tabulator make an empty transcript:
    the video is skipped. *)
Example blank_captions_skipped :
  fst (@fetch_transcript _ Mock.blank_captions (Some "D") (Mock.start tt))
    = Raise (ValueError "empty transcript") /\
  csv (snd (@Channel.main _ Mock.blank_captions (Mock.start tt))) = [].
Proof. split; reflexivity. Qed.

Lemma fetch_transcript_stripped_run :
  exists st1,
    @fetch_transcript _ Mock.padded_captions (Some "E") (Mock.start tt)
      = (Ok "hello world", st1) /\
    "hello world" <> "" /\ PyStr.strip "hello world" = "hello world" /\
    PyStr.starts_with_space "hello world" = false /\
    PyStr.ends_with_space "hello world" = false.
Proof.
  eexists. split; [vm_compute; reflexivity|].
  destruct (@fetch_transcript_stripped _ Mock.padded_captions (Some "E") (Mock.start tt)
              _ "hello world" eq_refl) as (Hne & Hs & Hstart & Hend & _).
  repeat split; assumption.
Defined.

Lemma channel_rows_follow_listing_run :
  exists st',
    @Channel.main_on _ Mock.three_uploads Channel.CHANNEL_URL (Mock.start tt) = (Ok tt, st') /\
    map video_id (csv st') = [Some "C"] /\
    subseq (map video_id (csv st')) [Some "A"; Some "B"; Some "C"].
Proof.
  destruct (@channel_rows_follow_listing _ Mock.three_uploads Channel.CHANNEL_URL
              [Mock.video "A" (Some 10); Mock.video "B" (Some 20); Mock.video "C" (Some 30)]
              (mkListing (Some [Mock.video "A" (Some 10); Mock.video "B" (Some 20);
                                Mock.video "C" (Some 30)]))
              (Mock.start tt))
    as (st' & Hrun & Hsub & _); try reflexivity; try discriminate.
  exists st'. split; [exact Hrun|]. split; [|exact Hsub].
  vm_compute in Hrun. injection Hrun as <-. reflexivity.
Defined.

Lemma channel_without_listing_run :
  @Channel.main_on _ (Mock.scripted Mock.spoken) Channel.CHANNEL_URL
     (Mock.start (Mock.mkWorld [] []))
  = (Ok tt,
     mkState (Mock.mkWorld [] [])
             [EvListing "https://www.youtube.com/@CosmicSkeptic/videos"] []).
Proof.
  apply (proj2 (@channel_without_listing _ (Mock.scripted Mock.spoken) Channel.CHANNEL_URL
                  (Mock.start (Mock.mkWorld [] [])))).
  - discriminate.
  - exact I.
Defined.

Lemma search_and_filter_no_quota_run :
  @search_and_filter _ (Mock.scripted Mock.spoken) 0 10000 (Finite 100000) 0
     (Mock.start Mock.mid_tier_search)
  = (Ok (Some []), Mock.start Mock.mid_tier_search).
Proof.
  apply (@search_and_filter_no_quota _ (Mock.scripted Mock.spoken)). lia.
Defined.

(** The search fails for good while the second tier is sampled: nothing is
    written. *)
Lemma main_writes_after_sampling_run :
  exists st',
    @main _ (Mock.scripted Mock.spoken) 5 (Mock.start Mock.broken_search)
      = (Raise (OtherError "connection reset"), st') /\
    csv st' = [].
Proof.
  eexists. split; [vm_compute; reflexivity|].
  eapply (@main_writes_after_sampling _ (Mock.scripted Mock.spoken) 5%nat
            (Mock.start Mock.broken_search)).
  - vm_compute. reflexivity.
  - discriminate.
Defined.

Lemma empty_tier_never_fills_run :
  fst (@search_and_filter _ (Mock.scripted Mock.spoken) 3 100000 (Finite 100000) 1
         (Mock.start Mock.mid_tier_search)) <> Ok (Some []) /\
  fst (@search_and_filter _ (Mock.scripted Mock.spoken) 3 100000 (Finite 100000) 1
         (Mock.start Mock.mid_tier_search)) = Ok None.
Proof.
  split; [|reflexivity].
  apply (@empty_tier_never_fills _ (Mock.scripted Mock.spoken) 100000 100000 1 3%nat
           (Mock.start Mock.mid_tier_search) []); lia.
Defined.

Lemma only_last_window_short_run :
  @Transformer.transcript_to_id_chunks (Mock.classifier 4) "hello" 2
    = Ok ([[104; 101]; [108; 108]] ++ [[111]])%list /\
  Forall (fun w => Z.of_nat (length w) = 2) [[104; 101]; [108; 108]].
Proof.
  split; [reflexivity|].
  apply (@only_last_window_short (Mock.classifier 4) "hello" 2
           [[104; 101]; [108; 108]] [111]); [lia | reflexivity].
Defined.

Lemma model_inputs_fit_run :
  @model_inputs (Mock.classifier 4) [[104; 101]; [108; 108]; [111]]
    = [[101; 104; 101; 102]; [101; 108; 108; 102]; [101; 111; 102]] /\
  Forall (fun input =>
            3 <= Z.of_nat (length input) <= 4 /\
            hd_error input = Some 101 /\ List.last input 101 = 102)
         (@model_inputs (Mock.classifier 4) [[104; 101]; [108; 108]; [111]]).
Proof.
  split; [reflexivity|].
  apply (@model_inputs_fit (Mock.classifier 4) "hello"); [cbn; lia | reflexivity].
Defined.

Lemma no_room_for_tokens_run :
  @Transformer.score_transcript (Mock.classifier 2) "hello"
    = Raise (ValueError "range() arg 3 must not be zero") /\
  @Transformer.score_transcript (Mock.classifier 1) "hello" = Raise ZeroDivisionError.
Proof.
  split.
  - apply (proj1 (@no_room_for_tokens (Mock.classifier 2) "hello")). reflexivity.
  - apply (proj2 (@no_room_for_tokens (Mock.classifier 1) "hello")). cbn. lia.
Defined.

Lemma score_all_needs_tokens_run :
  (exists scores,
     @Transformer.score_all (Mock.classifier 4) ["hello"; "world"] = Ok scores /\
     length scores = 2%nat) /\
  @Transformer.score_all (Mock.classifier 4) ["hello"; "  "; "world"]
    = Raise ZeroDivisionError.
Proof.
  split.
  - apply (proj1 (@score_all_needs_tokens (Mock.classifier 4) ["hello"; "world"]
                    ltac:(cbn; lia))).
    repeat constructor; discriminate.
  - apply (proj2 (@score_all_needs_tokens (Mock.classifier 4) ["hello"; "  "; "world"]
                    ltac:(cbn; lia))).
    intros Hall. inversion Hall as [|? ? _ Hrest]; subst.
    inversion Hrest as [|? ? Hblank _]; subst. apply Hblank. reflexivity.
Defined.

Lemma parse_reply_of_joined_run :
  PyStr.join ", " ["2"; "7"; "5"; "8"] = "2, 7, 5, 8" /\
  OpenAIScorer.parse_reply "2, 7, 5, 8" = ["2"; "7"; "5"; "8"].
Proof.
  split; [reflexivity|].
  apply (parse_reply_of_joined ["2"; "7"; "5"; "8"]); [discriminate|].
  repeat constructor.
Defined.

Lemma rate_limit_test_any_case_run :
  is_rate_limited "ERROR: Your IP is Rate-Limited by YouTube" = true.
Proof.
  apply (rate_limit_test_any_case "ERROR: Your IP is " "Rate-Limited" " by YouTube").
  reflexivity.
Defined.

Lemma score_rows_in_order_run :
  OpenAIScorer.score_rows (fun _ => " 2, 7, 5, 8 ") [(0%nat, "first"); (1%nat, "second")] []
  = Ok [(0%nat, ["2"; "7"; "5"; "8"]); (1%nat, ["2"; "7"; "5"; "8"])].
Proof.
  apply (score_rows_in_order (fun _ => " 2, 7, 5, 8 ")
           [(0%nat, "first"); (1%nat, "second")] []).
  - intros prompt. reflexivity.
  - cbn. constructor; [intros [E|[]]; discriminate E|].
    constructor; [intros []|constructor].
Defined.

End MoreRuns.
